(** * dg-psbmon: the poll, dedupe, deliver pipeline of [main.go]

    A shallow embedding of [getDaily], [checkID], [addID], [post],
    the method [send] of [ID] and the per-tick loop of [main], followed by the
    properties of the pipeline.

    The program talks to three outside parties: the SQLite file behind
    [database/sql], the paste feed (the HTTP client in [getDaily]) and the
    destination host (the HTTP client in [post]).  What they answer is not
    decided by the program, so it is taken from an environment [Env]: a
    script, indexed by the number of outside calls made so far, of what each
    call returns.  The table [pastes], that call counter and the trace of
    what the process has emitted make up the [World] that the code threads
    through a small state monad; a Go run-time panic ends the computation. *)

From Stdlib Require Import String Ascii ZArith List Bool Lia DecimalString.
Import ListNotations.
Open Scope string_scope.

(** ** Go values *)

(** A Go [error] value.  [sql.ErrNoRows] is a sentinel compared by identity
    (line 193); every other error is known by its text only ([err.Error()],
    line 280). *)
Inductive error : Type :=
| ErrNoRows
| Err (msg : string).

Definition Error (e : error) : string :=
  match e with
  | ErrNoRows => "sql: no rows in result set"
  | Err msg => msg
  end.

Definition is_ErrNoRows (e : error) : bool :=
  match e with ErrNoRows => true | Err _ => false end.

(** [%v] of an error operand in [log.Printf] / [log.Println]. *)
Definition fmt_v (err : option error) : string :=
  match err with
  | Some e => Error e
  | None => "<nil>"
  end.

(** [%d] of an integer operand. *)
Definition fmt_d (z : Z) : string := NilZero.string_of_int (Z.to_int z).

(** [type ID struct] (lines 34-38). *)
Record ID : Type := mkID {
  ID_ID : string;
  ID_Tags : string;
  ID_Date : Z
}.

(** [type Pastes struct] (lines 41-43). *)
Record Pastes : Type := mkPastes { Data : list ID }.

(** The range of Go's [int] on the 64-bit targets of the go-sqlite3 build. *)
Definition int_range (z : Z) : bool :=
  ((- 2 ^ 63 <=? z) && (z <? 2 ^ 63))%Z.

(** ** JSON values, as [encoding/json] sees a syntactically valid body *)

#[local] Set Warnings "-register-all".

Inductive json : Type :=
| JNull
| JBool (b : bool)
| JInt (z : Z)               (* number literal without fraction or exponent *)
| JFloat (lit : string)      (* number literal with a fraction or an exponent *)
| JString (s : string)
| JArray (items : list json)
| JObject (fields : list (string * json)).

(** ** The outside world *)

(** One row of [pastes (id INTEGER PRIMARY KEY, paste_ID VARCHAR(255) NOT
    NULL UNIQUE)] (line 61). *)
Record Row : Type := mkRow {
  rowid : Z;
  paste_ID : string
}.

(** What [ioutil.ReadAll(res.Body)] delivers: a read error, or the bytes of
    the body, which are either no JSON text at all or a JSON value. *)
Inductive Payload : Type :=
| Malformed (msg : string)
| Parsed (j : json).

Inductive ReadResult : Type :=
| ReadErr (msg : string)
| ReadOk (p : Payload).

Record Response : Type := mkResponse {
  StatusCode : Z;
  Body : ReadResult
}.

(** What [client.Do] returns: a response and no error, or an error together
    with the response pointer, which is nil except when the redirect policy
    failed. *)
Inductive DoResult : Type :=
| DoOk (res : Response)
| DoErr (res : option Response) (msg : string).

(** The script of the outside parties.  [t] is the number of outside calls
    the process has made before this one. *)
Record Env : Type := mkEnv {
  (* time.Now().Date(): year, month, day *)
  Now : nat -> Z * Z * Z;
  (* http.NewRequest: the error of parsing the URL, if any *)
  NewRequest : string -> option string;
  (* a storage fault of the SQLite call made at [t], if any *)
  db_fault : nat -> option string;
  (* the feed's answer to the request sent at [t] *)
  feed : nat -> DoResult;
  (* the transport error of the POST to the destination host at [t] *)
  deliver : nat -> option string;
  (* json.Marshal of a string *)
  Marshal : string -> string * option string
}.

(** What the process has emitted, most recent first. *)
Inductive Event : Type :=
| EvLog (line : string)              (* log.Println, log.Printf *)
| EvPrint (line : string)            (* fmt.Println *)
| EvFetch (payload : string)         (* client.Do(req) in getDaily *)
| EvSend (pasteID host : string)     (* a call of the method send *)
| EvPost (url payload : string).     (* client.Do(req) in post *)

Record World : Type := mkWorld {
  pastes : list Row;
  clock : nat;
  trace : list Event
}.

(** ** The monad of the embedding *)

Inductive Outcome (A : Type) : Type :=
| Ret (a : A) (w : World)
| Panic (msg : string) (w : World).
Arguments Ret {A} a w.
Arguments Panic {A} msg w.

Definition M (A : Type) : Type := World -> Outcome A.

Definition ret {A} (a : A) : M A := fun w => Ret a w.

Definition bind {A B} (m : M A) (k : A -> M B) : M B :=
  fun w =>
    match m w with
    | Ret a w' => k a w'
    | Panic msg w' => Panic msg w'
    end.

Definition panic {A} (msg : string) : M A := fun w => Panic msg w.

Declare Scope go_scope.
Delimit Scope go_scope with go.
Notation "x <- m ;; k" := (bind m (fun x => k))
  (at level 61, m at next level, right associativity) : go_scope.
Notation "m ;; k" := (bind m (fun _ => k))
  (at level 61, right associativity) : go_scope.
Open Scope go_scope.

(** The world an outcome ends in. *)
Definition final {A} (o : Outcome A) : World :=
  match o with
  | Ret _ w => w
  | Panic _ w => w
  end.

Definition tick : M nat :=
  fun w => Ret (clock w) (mkWorld (pastes w) (S (clock w)) (trace w)).

Definition emit (e : Event) : M unit :=
  fun w => Ret tt (mkWorld (pastes w) (clock w) (e :: trace w)).

Definition table : M (list Row) := fun w => Ret (pastes w) w.

Definition store (rows : list Row) : M unit :=
  fun w => Ret tt (mkWorld rows (clock w) (trace w)).

Definition nil_dereference : string :=
  "runtime error: invalid memory address or nil pointer dereference".

Definition index_out_of_range : string :=
  "runtime error: index out of range [0] with length 0".

(** ** [json.Unmarshal(body, &tempSlice)] with [tempSlice [][]ID] *)

Inductive result (A : Type) : Type :=
| Ok (a : A)
| Fail (e : error).
Arguments Ok {A} a.
Arguments Fail {A} e.

Definition kind (j : json) : string :=
  match j with
  | JNull => "null"
  | JBool _ => "bool"
  | JInt z => "number " ++ fmt_d z
  | JFloat lit => "number " ++ lit
  | JString _ => "string"
  | JArray _ => "array"
  | JObject _ => "object"
  end.

(** An [UnmarshalTypeError]; the callers only test it against nil. *)
Definition type_error (j : json) (ty : string) : error :=
  Err ("json: cannot unmarshal " ++ kind j ++ " into Go value of type " ++ ty).

Definition lower_ascii (c : ascii) : ascii :=
  let n := nat_of_ascii c in
  if (65 <=? n)%nat && (n <=? 90)%nat then ascii_of_nat (n + 32) else c.

Fixpoint lower (s : string) : string :=
  match s with
  | EmptyString => EmptyString
  | String c s' => String (lower_ascii c) (lower s')
  end.

(** A JSON value into a Go [string] that holds [cur]: null leaves it. *)
Definition unmarshal_string (cur : string) (j : json) : result string :=
  match j with
  | JNull => Ok cur
  | JString s => Ok s
  | _ => Fail (type_error j "string")
  end.

(** A JSON value into a Go [int] that holds [cur]. *)
Definition unmarshal_int (cur : Z) (j : json) : result Z :=
  match j with
  | JNull => Ok cur
  | JInt z => if int_range z then Ok z else Fail (type_error j "int")
  | _ => Fail (type_error j "int")
  end.

(** The members of a JSON object into an [ID], in the order of the text.  A
    key selects the field whose [json] tag it equals, letter case apart
    (ASCII letters; the tags are [id], [tags], [date]); other keys are
    skipped; a later member overwrites an earlier one. *)
Fixpoint unmarshal_fields (fields : list (string * json)) (cur : ID)
  : result ID :=
  match fields with
  | [] => Ok cur
  | (key, v) :: rest =>
      if lower key =? "id" then
        match unmarshal_string (ID_ID cur) v with
        | Ok s => unmarshal_fields rest (mkID s (ID_Tags cur) (ID_Date cur))
        | Fail e => Fail e
        end
      else if lower key =? "tags" then
        match unmarshal_string (ID_Tags cur) v with
        | Ok s => unmarshal_fields rest (mkID (ID_ID cur) s (ID_Date cur))
        | Fail e => Fail e
        end
      else if lower key =? "date" then
        match unmarshal_int (ID_Date cur) v with
        | Ok z => unmarshal_fields rest (mkID (ID_ID cur) (ID_Tags cur) z)
        | Fail e => Fail e
        end
      else unmarshal_fields rest cur
  end.

Definition unmarshal_ID (j : json) : result ID :=
  match j with
  | JNull => Ok (mkID "" "" 0)
  | JObject fields => unmarshal_fields fields (mkID "" "" 0)
  | _ => Fail (type_error j "main.ID")
  end.

(** The elements of a JSON array into a fresh slice, first error wins. *)
Fixpoint unmarshal_items {A} (f : json -> result A) (items : list json)
  : result (list A) :=
  match items with
  | [] => Ok []
  | j :: rest =>
      match f j with
      | Fail e => Fail e
      | Ok a =>
          match unmarshal_items f rest with
          | Fail e => Fail e
          | Ok l => Ok (a :: l)
          end
      end
  end.

Definition unmarshal_slice {A} (ty : string) (f : json -> result A)
  (j : json) : result (list A) :=
  match j with
  | JNull => Ok []
  | JArray items => unmarshal_items f items
  | _ => Fail (type_error j ty)
  end.

Definition Unmarshal (body : Payload) : result (list (list ID)) :=
  match body with
  | Malformed msg => Fail (Err msg)
  | Parsed j =>
      unmarshal_slice "[][]main.ID" (unmarshal_slice "[]main.ID" unmarshal_ID) j
  end.

(** The body the feed documents for the records [ids]. *)
Definition encode_ID (i : ID) : json :=
  JObject [("id", JString (ID_ID i));
           ("tags", JString (ID_Tags i));
           ("date", JInt (ID_Date i))].

Definition daily_body (ids : list ID) : json :=
  JArray [JArray (map encode_ID ids)].

(** ** The ledger: table [pastes] *)

(** Whether some row holds [pasteID]. SQLite compares the column byte by
    byte (collation BINARY). *)
Definition recorded (pasteID : string) (rows : list Row) : bool :=
  existsb (fun r => paste_ID r =? pasteID) rows.

(** The key SQLite gives a new row of an [INTEGER PRIMARY KEY] column: one
    more than the largest key in use. *)
Definition next_rowid (rows : list Row) : Z :=
  (1 + fold_right (fun r m => Z.max (rowid r) m) 0 rows)%Z.

Definition unique_failed : string :=
  "UNIQUE constraint failed: pastes.paste_ID".

Section Program.

Variable E : Env.
Variable hostString : string.

(** [db.Prepare(query)]. *)
Definition Prepare (query : string) : M (option error) :=
  t <- tick ;;
  ret (option_map Err (db_fault E t)).

(** [db.Begin()]. *)
Definition Begin : M (option error) :=
  t <- tick ;;
  ret (option_map Err (db_fault E t)).

(** [tx.Stmt(stmt).Exec(pasteID)] of the INSERT: a storage fault, or the
    UNIQUE constraint, or a row pending in the transaction. *)
Definition Exec (pasteID : string) : M (option error) :=
  t <- tick ;;
  match db_fault E t with
  | Some msg => ret (Some (Err msg))
  | None =>
      rows <- table ;;
      if recorded pasteID rows
      then ret (Some (Err unique_failed))
      else ret None
  end.

(** [tx.Rollback()]; its result is dropped by the caller. *)
Definition Rollback : M unit :=
  _ <- tick ;; ret tt.

(** [tx.Commit()] of a transaction holding the insert of [pasteID]; its
    result is dropped by the caller.  The row is in the table only if the
    commit went through (go-sqlite3 rolls back when COMMIT fails). *)
Definition Commit (pasteID : string) : M unit :=
  t <- tick ;;
  match db_fault E t with
  | Some _ => ret tt
  | None =>
      rows <- table ;;
      store (rows ++ [mkRow (next_rowid rows) pasteID])%list
  end.

(** [stmt.QueryRow(id)] of the SELECT followed by [row.Scan(&rowid)]. *)
Definition Scan (pasteID : string) : M (option error) :=
  t <- tick ;;
  match db_fault E t with
  | Some msg => ret (Some (Err msg))
  | None =>
      rows <- table ;;
      if recorded pasteID rows then ret None else ret (Some ErrNoRows)
  end.

(** [func addID] (lines 160-179). *)
Definition addID (pasteID : string) : M (option error) :=
  err <- Prepare "INSERT INTO pastes(paste_ID) VALUES(?)" ;;
  match err with
  | Some e => ret (Some e)
  | None =>
      err <- Begin ;;
      match err with
      | Some e => ret (Some e)
      | None =>
          err <- Exec pasteID ;;
          match err with
          | Some e => Rollback ;; ret (Some e)
          | None => Commit pasteID ;; ret None
          end
      end
  end.

(** [func checkID] (lines 181-198). *)
Definition checkID (id : string) : M (bool * option error) :=
  err <- Prepare "SELECT id FROM pastes WHERE paste_ID=?" ;;
  match err with
  | Some e => ret (false, Some e)
  | None =>
      err <- Scan id ;;
      match err with
      | Some e =>
          if negb (is_ErrNoRows e)
          then ret (false, Some e)
          else ret (true, None)
      | None => ret (true, None)
      end
  end.

(** The retry loop of [getDaily] (lines 119-132): [left] is [3 - retries];
    [res] and [err] are the variables of the same name. *)
Fixpoint attempts (payload : string) (left retries : nat)
  (res : option Response) (err : option error)
  : M (option Response * option error) :=
  match left with
  | 0 => ret (res, err)
  | S left' =>
      t <- tick ;;
      emit (EvFetch payload) ;;
      match feed E t with
      | DoErr res' msg =>
          emit (EvLog ("Encountered error sending HTTP request: " ++ msg)) ;;
          attempts payload left' (S retries) res' (Some (Err msg))
      | DoOk res' =>
          if (StatusCode res' =? 502)%Z then
            emit (EvLog ("Encountered 502 error. Retry ["
                         ++ fmt_d (Z.of_nat (retries + 1)) ++ "/3]")) ;;
            attempts payload left' (S retries) (Some res') None
          else ret (Some res', None)
      end
  end.

(** [fmt.Sprintf("from=%d.%d.%d&to=%d.%d.%d", day, int(month), year, day,
    int(month), year)] of [time.Now().Date()] (lines 99-100). *)
Definition searchDate (date : Z * Z * Z) : string :=
  let '(year, month, day) := date in
  "from=" ++ fmt_d day ++ "." ++ fmt_d month ++ "." ++ fmt_d year ++
  "&to=" ++ fmt_d day ++ "." ++ fmt_d month ++ "." ++ fmt_d year.

(** The loop of lines 152-154: append the elements one by one. *)
Definition append_all (inner : list ID) : list ID :=
  fold_left (fun data x => (data ++ [x])%list) inner [].

(** [func getDaily] (lines 95-158).  The result pair is [(p, err)]; [p] is
    [None] for the nil pointer. *)
Definition getDaily : M (option Pastes * option error) :=
  let url := "https://psbdmp.cc/api/v3/getbydate" in
  t <- tick ;;
  let payload := searchDate (Now E t) in
  match NewRequest E url with
  | Some msg =>
      emit (EvPrint msg) ;;
      ret (Some (mkPastes []), Some (Err msg))
  | None =>
      r <- attempts payload 3 0 None None ;;
      match fst r with
      | None => panic nil_dereference           (* res.Body, line 133 *)
      | Some res =>
          match Body res with
          | ReadErr msg =>
              emit (EvPrint msg) ;;
              ret (None, Some (Err msg))
          | ReadOk body =>
              match Unmarshal body with
              | Fail e => ret (Some (mkPastes []), Some e)
              | Ok tempSlice =>
                  match tempSlice with
                  | [] => panic index_out_of_range   (* tempSlice[0] *)
                  | inner :: _ =>
                      ret (Some (mkPastes (append_all inner)), None)
                  end
              end
          end
      end
  end.

(** [func post] (lines 200-212).  The error of [http.NewRequest] is
    overwritten unread, and [req] is nil when there is one. *)
Definition post (payload url : string) : M (option error) :=
  match NewRequest E url with
  | Some _ => panic nil_dereference             (* req.Header, line 202 *)
  | None =>
      t <- tick ;;
      emit (EvPost url payload) ;;
      match deliver E t with
      | Some msg => ret (Some (Err msg))
      | None => ret None
      end
  end.

(** The method [send] of [ID] (lines 214-227). *)
Definition send (id : ID) (host : string) : M (option error) :=
  emit (EvSend (ID_ID id) host) ;;
  match Marshal E (ID_ID id) with
  | (_, Some msg) => ret (Some (Err msg))
  | (body, None) =>
      let url := host ++ "/event" in
      err <- post body url ;;
      match err with
      | Some e => ret (Some e)
      | None => ret None
      end
  end.

(** The loop over [p.Data] in [main] (lines 273-290).  Leaving the
    recursion is [break]; going on with [rest] is [continue] or the end of
    the body. *)
Fixpoint range_Data (data : list ID) : M unit :=
  match data with
  | [] => ret tt
  | id :: rest =>
      r <- checkID (ID_ID id) ;;
      let (ok, err) := r in
      if (match err with Some _ => true | None => false end) || negb ok then
        emit (EvLog ("failed to query DB for paste_ID: " ++ ID_ID id
                     ++ " : " ++ fmt_v err))
      else
        err <- addID (ID_ID id) ;;
        match err with
        | Some e =>
            if negb (Error e =? unique_failed) then
              emit (EvLog ("error saving paste_ID to DB: " ++ Error e)) ;;
              range_Data rest
            else range_Data rest
        | None =>
            err <- send id hostString ;;
            match err with
            | Some e => emit (EvLog (Error e)) ;; range_Data rest
            | None => range_Data rest
            end
        end
  end.

(** One firing of the ticker: the body of [case <-ticker] (lines 265-290). *)
Definition cycle : M unit :=
  emit (EvLog "Checking psbdmp.cc for updates") ;;
  r <- getDaily ;;
  let (p, err) := r in
  match err with
  | Some e => emit (EvLog ("error checking daily pastes: " ++ Error e))
  | None =>
      match p with
      | None => panic nil_dereference
      | Some p => range_Data (Data p)
      end
  end.

(** The first [n] rounds of the endless [for] of [main] (line 262). *)
Fixpoint cycles (n : nat) : M unit :=
  match n with
  | 0 => ret tt
  | S n' => cycle ;; cycles n'
  end.

End Program.

(** ** Observations on a world *)

(** The identifiers handed to [send], most recent first. *)
Fixpoint forwards (tr : list Event) : list string :=
  match tr with
  | [] => []
  | EvSend x _ :: tr' => x :: forwards tr'
  | _ :: tr' => forwards tr'
  end.

(** How many times [send] was called for [x]. *)
Definition sends (x : string) (tr : list Event) : nat :=
  count_occ string_dec (forwards tr) x.

(** How many times [getDaily] has called [client.Do]. *)
Fixpoint fetches (tr : list Event) : nat :=
  match tr with
  | [] => 0
  | EvFetch _ :: tr' => S (fetches tr')
  | _ :: tr' => fetches tr'
  end.

(** [x] is in the table of [w'], and [send] was called for it as often up
    to [w'] as up to [w]. *)
Definition kept (x : string) (w w' : World) : Prop :=
  recorded x (pastes w') = true /\ sends x (trace w') = sends x (trace w).

(** [n] outside calls later, nothing else changed. *)
Definition advance (n : nat) (w : World) : World :=
  mkWorld (pastes w) (n + clock w) (trace w).

(** [log.Printf] / [log.Println] of [line]. *)
Definition logged (line : string) (w : World) : World :=
  mkWorld (pastes w) (clock w) (EvLog line :: trace w).

(** A [client.Do] answer after which the loop of [getDaily] goes round
    again. *)
Definition retryable (d : DoResult) : bool :=
  match d with
  | DoErr _ _ => true
  | DoOk res => (StatusCode res =? 502)%Z
  end.

(** A [client.Do] answer that leaves [res] non-nil. *)
Definition has_response (d : DoResult) : bool :=
  match d with
  | DoErr None _ => false
  | _ => true
  end.

Definition daily_url : string := "https://psbdmp.cc/api/v3/getbydate".

(** ** Scenarios *)

Definition dquote : string := String "034"%char EmptyString.

(** No fault anywhere; the feed answers 200 with [body]. *)
Definition calm (body : json) : Env :=
  mkEnv (fun _ => (2021, 3, 14)%Z)
        (fun _ => None)
        (fun _ => None)
        (fun _ => DoOk (mkResponse 200 (ReadOk (Parsed body))))
        (fun _ => None)
        (fun s => (dquote ++ s ++ dquote, None)).

(** As [E], with a storage fault at the outside call number [t]. *)
Definition with_db_fault (t : nat) (msg : string) (E : Env) : Env :=
  mkEnv (Now E) (NewRequest E)
        (fun t' => if Nat.eqb t' t then Some msg else db_fault E t')
        (feed E) (deliver E) (Marshal E).

(** As [E], with the destination host unreachable. *)
Definition with_host_down (msg : string) (E : Env) : Env :=
  mkEnv (Now E) (NewRequest E) (db_fault E) (feed E)
        (fun _ => Some msg) (Marshal E).

(** As [E], with the feed answering [d] to every request. *)
Definition with_feed (d : DoResult) (E : Env) : Env :=
  mkEnv (Now E) (NewRequest E) (db_fault E) (fun _ => d)
        (deliver E) (Marshal E).

Definition paste_a : ID := mkID "a" "" 1615680000.
Definition paste_b : ID := mkID "b" "leak" 1615680060.

Definition fresh : World := mkWorld [] 0 [].

(** The ledger already holds [a]. *)
Definition seen_a : World := mkWorld [mkRow 1 "a"] 0 [].

(** The feed reports [a] then [b]; nothing fails. *)
Definition feed_ab : Env := calm (daily_body [paste_a; paste_b]).

(** The same feed, with the destination host refusing connections. *)
Definition host_down : Env := with_host_down "connection refused" feed_ab.

(** The feed's every request ends in a transport error, no response. *)
Definition feed_down : Env :=
  with_feed (DoErr None "dial tcp: connection refused") (calm JNull).

(** [a] has just been inserted, starting from [fresh]. *)
Definition a_recorded : World := mkWorld [mkRow 1 "a"] 6 [].

(** [send] has then been called for [a] and its POST has gone out. *)
Definition a_sent : World :=
  mkWorld [mkRow 1 "a"] 7
          [EvPost "http://dg/event" (dquote ++ "a" ++ dquote);
           EvSend "a" "http://dg"].

(** ** Start of the process: [init], [open], [makeTables], [main] *)

(** How a process that may also leave through [os.Exit] ends. *)
Inductive Run (A : Type) : Type :=
| Running (a : A) (w : World)
| Exited (status : Z) (w : World)
| Crashed (msg : string) (w : World).
Arguments Running {A} a w.
Arguments Exited {A} status w.
Arguments Crashed {A} msg w.

Definition P (A : Type) : Type := World -> Run A.

Definition pret {A} (a : A) : P A := fun w => Running a w.

Definition pbind {A B} (m : P A) (k : A -> P B) : P B :=
  fun w =>
    match m w with
    | Running a w' => k a w'
    | Exited status w' => Exited status w'
    | Crashed msg w' => Crashed msg w'
    end.

(** Code that cannot exit, run inside the process. *)
Definition lift {A} (m : M A) : P A :=
  fun w =>
    match m w with
    | Ret a w' => Running a w'
    | Panic msg w' => Crashed msg w'
    end.

Definition exit {A} (status : Z) : P A := fun w => Exited status w.

Definition crash {A} (msg : string) : P A := fun w => Crashed msg w.

(** [log.Fatal] / [log.Fatalf]: the line, then [os.Exit(1)]. *)
Definition fatal {A} (line : string) : P A :=
  fun w => Exited 1 (logged line w).

Declare Scope proc_scope.
Delimit Scope proc_scope with proc.
Notation "x <- m ;; k" := (pbind m (fun x => k))
  (at level 61, m at next level, right associativity) : proc_scope.
Notation "m ;; k" := (pbind m (fun _ => k))
  (at level 61, right associativity) : proc_scope.

(** The world a run ends in. *)
Definition ended {A} (r : Run A) : World :=
  match r with
  | Running _ w => w
  | Exited _ w => w
  | Crashed _ w => w
  end.

(** What [parser.Parse()] of go-flags makes of the command line. *)
Inductive ParseResult : Type :=
| ParseOk (Interval : Z)     (* opts.Interval, 5 when the flag is absent *)
| ParseHelp                  (* *flags.Error of type flags.ErrHelp *)
| ParseFail.                 (* any other error *)

(** What the process is started with. *)
Record Start : Type := mkStart {
  Parse : ParseResult;
  sql_Open : option string;  (* the error of sql.Open("sqlite3", ...) *)
  DG_HOST : string           (* os.Getenv("DG_HOST") *)
}.

(** Go's [int64] arithmetic wraps around. *)
Definition wrap64 (z : Z) : Z := ((z + 2 ^ 63) mod 2 ^ 64 - 2 ^ 63)%Z.

(** [time.Minute], in nanoseconds. *)
Definition Minute : Z := 60000000000%Z.

(** [func init] (lines 229-238). *)
Definition init (S : Start) : P unit :=
  match Parse S with
  | ParseOk _ => pret tt
  | ParseHelp => exit 0
  | ParseFail => exit 1
  end.

(** [opts.Interval] once [init] has run. *)
Definition opts_Interval (S : Start) : Z :=
  match Parse S with
  | ParseOk Interval => Interval
  | _ => 0%Z
  end.

Section Startup.

Variable E : Env.

(** [tx.Stmt(stmt).Exec()] of the CREATE TABLE IF NOT EXISTS: rows that are
    there stay. *)
Definition ExecCreate : M (option error) :=
  t <- tick ;;
  ret (option_map Err (db_fault E t)).

(** [tx.Commit()] of that transaction; its result is dropped. *)
Definition CommitCreate : M unit :=
  _ <- tick ;; ret tt.

(** [func makeTables] (lines 57-84).  A failed [db.Prepare] or [db.Begin] is
    logged and the function goes on with the nil [stmt] or [tx], which
    [tx.Stmt(stmt)] dereferences (line 73). *)
Definition makeTables : P (option error) :=
  (lift (emit (EvLog "Creating `pastes` table if it does not exist")) ;;
   stmt <- lift (Prepare E "CREATE TABLE IF NOT EXISTS pastes (id INTEGER PRIMARY KEY, paste_ID VARCHAR(255) NOT NULL UNIQUE)") ;;
   match stmt with
   | Some e =>
       lift (emit (EvLog ("failed to prepare create table statement for `pastes` table: "
                          ++ Error e ++ " ")))
   | None => pret tt
   end ;;
   tx <- lift (Begin E) ;;
   match tx with
   | Some e => lift (emit (EvLog ("failed to begin transaction: " ++ Error e)))
   | None => pret tt
   end ;;
   match tx, stmt with
   | None, None =>
       err <- lift ExecCreate ;;
       match err with
       | Some e => fatal ("failed to create `pastes` table: " ++ Error e)
       | None => pret tt
       end ;;
       lift CommitCreate ;;
       match err with
       | Some e => pret (Some e)
       | None => pret None
       end
   | _, _ => crash nil_dereference
   end)%proc.

(** [func main] (lines 240-293), up to the [n]-th firing of the ticker.
    [time.NewTicker] panics on a period that is not positive (line 259). *)
Definition main (S : Start) (n : nat) : P unit :=
  (match sql_Open S with
   | Some msg => fatal ("Failed to open database: " ++ msg)
   | None =>
       err <- makeTables ;;
       match err with
       | Some e => fatal ("failed to create `pastes` table: " ++ Error e)
       | None =>
           let hostString := DG_HOST S in
           if hostString =? "" then
             fatal "Must provide Dr.Gero API host in DG_HOST environment variable"
           else if (wrap64 (opts_Interval S * Minute) <=? 0)%Z then
             crash "non-positive interval for NewTicker"
           else
             lift (emit (EvLog "Starting psbdmp.cc Monitor")) ;;
             lift (cycles E hostString n)
       end
   end)%proc.

(** The process: [init], then [main]. *)
Definition process (S : Start) (n : nat) : P unit :=
  (init S ;; main S n)%proc.

End Startup.

(** ** Further observations *)

(** The POST requests sent to the destination, most recent first. *)
Fixpoint posts (tr : list Event) : list (string * string) :=
  match tr with
  | [] => []
  | EvPost url payload :: tr' => (url, payload) :: posts tr'
  | _ :: tr' => posts tr'
  end.

(** The identifiers of a batch that get a new row when the storage meets no
    fault, in the order of the batch: those not recorded in [rows] and not
    met earlier in the batch. *)
Fixpoint accepted (rows : list Row) (ids : list string) : list string :=
  match ids with
  | [] => []
  | x :: rest =>
      if recorded x rows then accepted rows rest
      else x :: accepted (rows ++ [mkRow (next_rowid rows) x]) rest
  end.

(** The table after that batch. *)
Fixpoint ledger_after (rows : list Row) (ids : list string) : list Row :=
  match ids with
  | [] => rows
  | x :: rest =>
      if recorded x rows then ledger_after rows rest
      else ledger_after (rows ++ [mkRow (next_rowid rows) x]) rest
  end.

(** Between [w] and [w'], every new POST went to [host]/event with the
    marshalled text of an identifier newly handed to [send], and there are
    no more new POSTs than new calls of [send]. *)
Definition one_post_per_send (E : Env) (host : string) (w w' : World)
  : Prop :=
  exists ps ss,
    posts (trace w') = (ps ++ posts (trace w))%list /\
    forwards (trace w') = (ss ++ forwards (trace w))%list /\
    length ps <= length ss /\
    Forall (fun p => fst p = host ++ "/event" /\
                     exists x, In x ss /\ snd p = fst (Marshal E x)) ps.

(** Between [w] and [w'], [send] was called for [x] not at all, or once
    and [x] is in the table since. *)
Definition once (x : string) (w w' : World) : Prop :=
  sends x (trace w') = sends x (trace w) \/
  (sends x (trace w') = S (sends x (trace w)) /\
   recorded x (pastes w') = true).

(** Between [w] and [w'] the process has at most logged and made storage
    calls: same rows, no call of [client.Do], of [send] or of [post]. *)
Definition only_logged (w w' : World) : Prop :=
  pastes w' = pastes w /\
  fetches (trace w') = fetches (trace w) /\
  forwards (trace w') = forwards (trace w) /\
  posts (trace w') = posts (trace w).

(** The world [makeTables] leaves when it returns. *)
Definition tables_made (w : World) : World :=
  mkWorld (pastes w) (4 + clock w)
          (EvLog "Creating `pastes` table if it does not exist" :: trace w).

(** No storage call ever meets a fault. *)
Definition healthy (E : Env) : Prop := forall t, db_fault E t = None.

(** A usable command line, database driver and destination. *)
Definition start_ok : Start :=
  mkStart (ParseOk 5) None "http://dg".

(** The first call of [client.Do] is refused, the second is answered. *)
Definition second_try (body : Payload) : Env :=
  mkEnv (fun _ => (2021, 3, 14)%Z)
        (fun _ => None)
        (fun _ => None)
        (fun t => if Nat.eqb t 1
                  then DoErr None "dial tcp: connection refused"
                  else DoOk (mkResponse 200 (ReadOk body)))
        (fun _ => None)
        (fun s => (dquote ++ s ++ dquote, None)).

(** As [E], with a URL that [http.NewRequest] cannot parse. *)
Definition with_bad_url (url msg : string) (E : Env) : Env :=
  mkEnv (Now E)
        (fun u => if u =? url then Some msg else NewRequest E u)
        (db_fault E) (feed E) (deliver E) (Marshal E).

(** ** What the two ledger calls do, call by call *)

Section Ledger.

Variable E : Env.

Lemma checkID_run (id : string) (w : World) :
  checkID E id w =
  match db_fault E (clock w) with
  | Some msg => Ret (false, Some (Err msg)) (advance 1 w)
  | None =>
      match db_fault E (S (clock w)) with
      | Some msg => Ret (false, Some (Err msg)) (advance 2 w)
      | None => Ret (true, None) (advance 2 w)
      end
  end.
Proof.
  unfold checkID, Prepare, Scan, bind, tick, table, ret, advance; simpl.
  destruct (db_fault E (clock w)); simpl; [reflexivity|].
  destruct (db_fault E (S (clock w))); simpl; [reflexivity|].
  destruct (recorded id (pastes w)); reflexivity.
Qed.

Lemma addID_run (pasteID : string) (w : World) :
  addID E pasteID w =
  match db_fault E (clock w) with
  | Some msg => Ret (Some (Err msg)) (advance 1 w)
  | None =>
  match db_fault E (1 + clock w) with
  | Some msg => Ret (Some (Err msg)) (advance 2 w)
  | None =>
  match db_fault E (2 + clock w) with
  | Some msg => Ret (Some (Err msg)) (advance 4 w)
  | None =>
      if recorded pasteID (pastes w)
      then Ret (Some (Err unique_failed)) (advance 4 w)
      else
        match db_fault E (3 + clock w) with
        | Some _ => Ret None (advance 4 w)
        | None =>
            Ret None
                (mkWorld (pastes w ++ [mkRow (next_rowid (pastes w)) pasteID])
                         (4 + clock w) (trace w))
        end
  end end end.
Proof.
  unfold addID, Prepare, Begin, Exec, Rollback, Commit, bind, tick, table,
    store, ret, advance; simpl.
  destruct (db_fault E (clock w)); simpl; [reflexivity|].
  destruct (db_fault E (S (clock w))); simpl; [reflexivity|].
  destruct (db_fault E (S (S (clock w)))); simpl; [reflexivity|].
  destruct (recorded pasteID (pastes w)); simpl; [reflexivity|].
  destruct (db_fault E (S (S (S (clock w))))); reflexivity.
Qed.

(** [checkID] returns, leaves table and trace alone, and answers [true]
    exactly when it has no error to report. *)
Lemma checkID_frame (id : string) (w : World) :
  exists ok err w',
    checkID E id w = Ret (ok, err) w' /\
    pastes w' = pastes w /\ trace w' = trace w /\
    (ok = true <-> err = None).
Proof.
  rewrite checkID_run.
  destruct (db_fault E (clock w)) as [m|].
  - exists false, (Some (Err m)), (advance 1 w).
    repeat split; intro; discriminate.
  - destruct (db_fault E (S (clock w))) as [m|].
    + exists false, (Some (Err m)), (advance 2 w).
      repeat split; intro; discriminate.
    + exists true, None, (advance 2 w). repeat split.
Qed.

Lemma recorded_app (x : string) (rows more : list Row) :
  recorded x (rows ++ more) = recorded x rows || recorded x more.
Proof. unfold recorded. apply existsb_app. Qed.

(** [addID] returns and leaves the trace alone; rows are only ever added;
    a recorded identifier is never accepted; a refusal changes no row. *)
Lemma addID_frame (pasteID : string) (w : World) :
  exists err w',
    addID E pasteID w = Ret err w' /\
    trace w' = trace w /\
    (forall x, recorded x (pastes w) = true -> recorded x (pastes w') = true) /\
    (recorded pasteID (pastes w) = true -> err <> None) /\
    (err <> None -> pastes w' = pastes w).
Proof.
  rewrite addID_run.
  destruct (db_fault E (clock w)) as [m|];
    [exists (Some (Err m)), (advance 1 w); repeat split; auto; discriminate|].
  destruct (db_fault E (1 + clock w)) as [m|];
    [exists (Some (Err m)), (advance 2 w); repeat split; auto; discriminate|].
  destruct (db_fault E (2 + clock w)) as [m|];
    [exists (Some (Err m)), (advance 4 w); repeat split; auto; discriminate|].
  destruct (recorded pasteID (pastes w)) eqn:Hrec;
    [exists (Some (Err unique_failed)), (advance 4 w);
     repeat split; auto; discriminate|].
  destruct (db_fault E (3 + clock w)) as [m|].
  - exists None, (advance 4 w). repeat split; auto; discriminate.
  - eexists None, _. split; [reflexivity|]. simpl.
    split; [reflexivity|]. split; [|split].
    + intros x Hx. rewrite recorded_app, Hx. reflexivity.
    + discriminate.
    + intro H; now elim H.
Qed.

End Ledger.

(** ** The fetcher *)

Lemma append_all_id (inner : list ID) : append_all inner = inner.
Proof.
  unfold append_all.
  assert (H : forall acc : list ID,
             fold_left (fun data x => (data ++ [x])%list) inner acc
             = (acc ++ inner)%list).
  { induction inner as [|x l IH]; intro acc; simpl.
    - now rewrite app_nil_r.
    - rewrite IH, <- app_assoc. reflexivity. }
  apply (H []).
Qed.

Lemma unmarshal_encode_ID (i : ID) :
  int_range (ID_Date i) = true -> unmarshal_ID (encode_ID i) = Ok i.
Proof.
  intro Hr. destruct i as [x tags date]. simpl in *.
  rewrite Hr. reflexivity.
Qed.

Lemma unmarshal_encoded_items (ids : list ID) :
  forallb (fun i => int_range (ID_Date i)) ids = true ->
  unmarshal_items unmarshal_ID (map encode_ID ids) = Ok ids.
Proof.
  induction ids as [|i l IH]; intro H; [reflexivity|].
  apply andb_prop in H. destruct H as [Hi Hl].
  cbn [map unmarshal_items].
  rewrite (unmarshal_encode_ID i Hi), (IH Hl). reflexivity.
Qed.

Lemma Unmarshal_daily_body (ids : list ID) :
  forallb (fun i => int_range (ID_Date i)) ids = true ->
  Unmarshal (Parsed (daily_body ids)) = Ok [ids].
Proof.
  intro H. unfold Unmarshal, daily_body.
  cbn [unmarshal_slice unmarshal_items].
  rewrite (unmarshal_encoded_items ids H). reflexivity.
Qed.

Section Fetcher.

Variable E : Env.

(** The retry loop returns, touches no row, calls no [send] and calls
    [client.Do] at most [left] times. *)
Lemma attempts_frame (payload : string) (left : nat) :
  forall retries res err w,
  exists r w',
    attempts E payload left retries res err w = Ret r w' /\
    pastes w' = pastes w /\
    forwards (trace w') = forwards (trace w) /\
    fetches (trace w') <= left + fetches (trace w).
Proof.
  induction left as [|left IH]; intros retries res err w.
  - exists (res, err), w. repeat split. simpl. lia.
  - cbn [attempts]. unfold bind, tick, emit. cbn [clock pastes trace].
    destruct (feed E (clock w)) as [r|r msg].
    + destruct (StatusCode r =? 502)%Z.
      * match goal with
        | |- context [attempts E payload left ?a ?b ?c ?w0] =>
            destruct (IH a b c w0) as (r' & w' & Hrun & Hp & Hf & Hn)
        end.
        exists r', w'. rewrite Hrun. simpl in *. repeat split; auto. lia.
      * eexists _, _. split; [reflexivity|]. simpl. repeat split. lia.
    + match goal with
      | |- context [attempts E payload left ?a ?b ?c ?w0] =>
          destruct (IH a b c w0) as (r' & w' & Hrun & Hp & Hf & Hn)
      end.
      exists r', w'. rewrite Hrun. simpl in *. repeat split; auto. lia.
Qed.

(** If the answer number [k] is the first one that is neither a transport
    error nor a 502, and [k] is within the attempts left, the loop ends with
    that response and no error. *)
Lemma attempts_settles (payload : string) (r : Response) (k : nat) :
  forall left retries res err w,
    k < left ->
    (forall i, i < k -> retryable (feed E (i + clock w)) = true) ->
    feed E (k + clock w) = DoOk r ->
    (StatusCode r =? 502)%Z = false ->
    exists w',
      attempts E payload left retries res err w = Ret (Some r, None) w'.
Proof.
  induction k as [|k IH]; intros left retries res err w Hk Hre Hok H502;
    (destruct left as [|left]; [lia|]);
    cbn [attempts]; unfold bind, tick, emit; cbn [clock pastes trace].
  - simpl in Hok. rewrite Hok, H502. eexists. reflexivity.
  - assert (H0 := Hre 0 ltac:(lia)). simpl in H0.
    assert (Hnext : forall w0, clock w0 = S (clock w) ->
              exists w', attempts E payload left (S retries)
                           match feed E (clock w) with
                           | DoOk r0 => Some r0
                           | DoErr r0 _ => r0
                           end
                           match feed E (clock w) with
                           | DoOk _ => None
                           | DoErr _ msg => Some (Err msg)
                           end w0 = Ret (Some r, None) w').
    { intros w0 Hc. apply IH; [lia| |rewrite Hc|exact H502].
      - intros i Hi. rewrite Hc.
        replace (i + S (clock w)) with (S i + clock w) by lia.
        apply Hre. lia.
      - replace (k + S (clock w)) with (S k + clock w) by lia. exact Hok. }
    destruct (feed E (clock w)) as [r0|r0 msg]; simpl in H0.
    + rewrite H0. apply Hnext. reflexivity.
    + apply Hnext. reflexivity.
Qed.

(** If every answer leaves [res] nil, the loop ends with [res] nil. *)
Lemma attempts_no_response (payload : string) (left : nat) :
  forall retries err w,
    (forall i, i < left -> has_response (feed E (i + clock w)) = false) ->
    exists err' w',
      attempts E payload left retries None err w = Ret (None, err') w' /\
      fetches (trace w') = left + fetches (trace w).
Proof.
  induction left as [|left IH]; intros retries err w Hall.
  - exists err, w. split; reflexivity.
  - cbn [attempts]. unfold bind, tick, emit. cbn [clock pastes trace].
    assert (H0 := Hall 0 ltac:(lia)). simpl in H0.
    destruct (feed E (clock w)) as [r0|[r0|] msg]; try discriminate.
    match goal with
    | |- context [attempts E payload left ?a None ?c ?w0] =>
        destruct (IH a c w0) as (err' & w' & Hrun & Hn)
    end.
    { intros i Hi. simpl.
      replace (i + S (clock w)) with (S i + clock w) by lia.
      apply Hall. lia. }
    exists err', w'. rewrite Hrun. split; [reflexivity|].
    rewrite Hn. simpl. lia.
Qed.

(** If the loop ends with a response, it came with [res] or with one of the
    answers. *)
Lemma attempts_response_origin (payload : string) (left : nat) :
  forall retries res err w r err' w',
    attempts E payload left retries res err w = Ret (Some r, err') w' ->
    res = Some r \/
    exists i, i < left /\ has_response (feed E (i + clock w)) = true.
Proof.
  induction left as [|left IH]; intros retries res err w r err' w' Hrun.
  - left. cbn in Hrun. unfold ret in Hrun. congruence.
  - right. cbn [attempts] in Hrun. unfold bind, tick, emit in Hrun.
    cbn [clock pastes trace] in Hrun.
    destruct (feed E (clock w)) as [r0|[r0|] msg] eqn:Hfeed;
      try (exists 0; split; [lia|simpl; rewrite Hfeed; reflexivity]).
    apply IH in Hrun. destruct Hrun as [Hr|(i & Hi & Hresp)]; [discriminate|].
    exists (S i). split; [lia|].
    simpl in Hresp.
    replace (S i + clock w) with (i + S (clock w)) by lia. exact Hresp.
Qed.

End Fetcher.

Section Daily.

Variable E : Env.

(** [getDaily] touches no row, calls no [send] and calls [client.Do] at
    most three times, however it ends. *)
Lemma getDaily_frame (w : World) :
  pastes (final (getDaily E w)) = pastes w /\
  forwards (trace (final (getDaily E w))) = forwards (trace w) /\
  fetches (trace (final (getDaily E w))) <= 3 + fetches (trace w).
Proof.
  unfold getDaily, bind at 1, tick. cbn [clock pastes trace].
  destruct (NewRequest E _) as [msg|].
  - simpl. repeat split. lia.
  - unfold bind.
    match goal with
    | |- context [attempts E ?p 3 0 None None ?w0] =>
        destruct (attempts_frame E p 3 0 None None w0)
          as ([res err] & w' & Hrun & Hp & Hf & Hn)
    end.
    rewrite Hrun. simpl in Hp, Hf, Hn. cbn [fst].
    destruct res as [res|]; [|simpl; auto].
    destruct (Body res) as [msg|body]; [simpl; auto|].
    destruct (Unmarshal body) as [[|inner tl]|e]; simpl; auto.
Qed.

(** Once the loop has settled on the response [r], the rest of [getDaily]
    is decided by the body of [r]. *)
Lemma getDaily_settled (w : World) (k : nat) (r : Response) :
  NewRequest E daily_url = None ->
  k < 3 ->
  (forall i, i < k -> retryable (feed E (i + S (clock w))) = true) ->
  feed E (k + S (clock w)) = DoOk r ->
  (StatusCode r =? 502)%Z = false ->
  exists w',
    getDaily E w =
    match Body r with
    | ReadErr msg =>
        Ret (None, Some (Err msg))
            (mkWorld (pastes w') (clock w') (EvPrint msg :: trace w'))
    | ReadOk body =>
        match Unmarshal body with
        | Fail e => Ret (Some (mkPastes []), Some e) w'
        | Ok [] => Panic index_out_of_range w'
        | Ok (inner :: _) => Ret (Some (mkPastes inner), None) w'
        end
    end.
Proof.
  intros Hnew Hk Hre Hok H502.
  unfold getDaily, bind at 1, tick. cbn [clock pastes trace].
  unfold daily_url in Hnew. rewrite Hnew. unfold bind.
  match goal with
  | |- context [attempts E ?p 3 0 None None ?w0] =>
      destruct (attempts_settles E p r k 3 0 None None w0 Hk Hre Hok H502)
        as (w' & Hrun)
  end.
  rewrite Hrun. cbn [fst]. exists w'.
  destruct (Body r) as [msg|body]; [reflexivity|].
  destruct (Unmarshal body) as [[|inner tl]|e]; try reflexivity.
  rewrite append_all_id. reflexivity.
Qed.

End Daily.

(** ** The forwarder and the loop over a batch *)

Lemma sends_cons_log (x line : string) (tr : list Event) :
  sends x (EvLog line :: tr) = sends x tr.
Proof. reflexivity. Qed.

Lemma sends_of_forwards (x : string) (tr tr' : list Event) :
  forwards tr' = forwards tr -> sends x tr' = sends x tr.
Proof. unfold sends. intro H. rewrite H. reflexivity. Qed.

Lemma sends_other (x y : string) (tr tr' : list Event) :
  forwards tr' = y :: forwards tr -> y <> x -> sends x tr' = sends x tr.
Proof.
  unfold sends. intros H Hne. rewrite H. simpl.
  destruct (string_dec y x); [contradiction|reflexivity].
Qed.

Lemma sends_same (x : string) (tr tr' : list Event) :
  forwards tr' = x :: forwards tr -> sends x tr' = S (sends x tr).
Proof.
  unfold sends. intro H. rewrite H. simpl.
  destruct (string_dec x x); [reflexivity|contradiction].
Qed.

Lemma kept_after (x : string) (w w0 w' : World) :
  sends x (trace w0) = sends x (trace w) -> kept x w0 w' -> kept x w w'.
Proof. intros H [H1 H2]. split; [exact H1|]. rewrite H2. exact H. Qed.

(** The rest of a run starts in a world that still has [x] recorded and as
    many calls of [send] for it: hand over to the lemma [step] about the
    rest. *)
Ltac carry_on step Hrec Hsends :=
  eapply kept_after; [|apply step; exact Hrec]; exact Hsends.

Section Pipeline.

Variable E : Env.
Variable hostString : string.

(** [send] touches no row and is one more call of the forwarder, however it
    ends. *)
Lemma send_frame (id : ID) (host : string) (w : World) :
  pastes (final (send E id host w)) = pastes w /\
  forwards (trace (final (send E id host w)))
  = ID_ID id :: forwards (trace w).
Proof.
  unfold send, post, bind, emit, tick, ret, panic. cbn [clock pastes trace].
  destruct (Marshal E (ID_ID id)) as [body [msg|]]; [simpl; auto|].
  destruct (NewRequest E _); [simpl; auto|].
  cbn [clock pastes trace].
  destruct (deliver E (clock w)); simpl; auto.
Qed.

(** Once [x] is in the table, a batch neither removes it nor hands it to the
    forwarder, whatever the batch holds and however it ends. *)
Lemma range_Data_keeps (x : string) (data : list ID) :
  forall w,
    recorded x (pastes w) = true ->
    kept x w (final (range_Data E hostString data w)).
Proof.
  induction data as [|id rest IH]; intros w Hrec;
    [split; [exact Hrec|reflexivity]|].
  cbn [range_Data]. unfold bind at 1.
  destruct (checkID_frame E (ID_ID id) w)
    as (ok & err & w1 & Hc & Hp1 & Ht1 & Hok).
  rewrite Hc.
  destruct err as [e|].
  - cbn [orb]. unfold emit. cbn [final]. split; cbn [pastes trace].
    + rewrite Hp1. exact Hrec.
    + rewrite sends_cons_log, Ht1. reflexivity.
  - rewrite (proj2 Hok eq_refl). cbn [orb negb].
    unfold bind at 1.
    destruct (addID_frame E (ID_ID id) w1)
      as (err2 & w2 & Ha & Ht2 & Hmono & Hdup & Hsame).
    rewrite Ha.
    assert (Hrec2 : recorded x (pastes w2) = true)
      by (apply Hmono; rewrite Hp1; exact Hrec).
    assert (Hs2 : sends x (trace w2) = sends x (trace w))
      by (rewrite Ht2, Ht1; reflexivity).
    destruct err2 as [e|].
    + destruct (negb (Error e =? unique_failed)).
      * unfold bind at 1, emit.
        carry_on (IH) Hrec2 Hs2.
      * carry_on (IH) Hrec2 Hs2.
    + assert (Hne : ID_ID id <> x).
      { intro Heq. apply Hdup; [|reflexivity].
        rewrite Heq, Hp1. exact Hrec. }
      destruct (send_frame id hostString w2) as [Hps Hfs].
      unfold bind at 1.
      destruct (send E id hostString w2) as [err3 w3|msg w3];
        cbn [final] in Hps, Hfs.
      * assert (Hrec3 : recorded x (pastes w3) = true)
          by (rewrite Hps; exact Hrec2).
        assert (Hs3 : sends x (trace w3) = sends x (trace w))
          by (rewrite (sends_other x _ _ _ Hfs Hne); exact Hs2).
        destruct err3 as [e|].
        -- unfold bind at 1, emit.
           carry_on (IH) Hrec3 Hs3.
        -- carry_on (IH) Hrec3 Hs3.
      * cbn [final]. split; [rewrite Hps; exact Hrec2|].
        rewrite (sends_other x _ _ _ Hfs Hne). exact Hs2.
Qed.

Lemma cycle_keeps (x : string) (w : World) :
  recorded x (pastes w) = true ->
  kept x w (final (cycle E hostString w)).
Proof.
  intro Hrec. unfold cycle, bind at 1, emit. cbn [pastes clock trace].
  unfold bind at 1.
  match goal with
  | |- context [getDaily E ?w0] =>
      destruct (getDaily_frame E w0) as (Hp & Hf & _);
      destruct (getDaily E w0) as [[p err] w1|msg w1]
  end; cbn [final pastes trace] in Hp, Hf.
  - assert (Hrec1 : recorded x (pastes w1) = true) by (rewrite Hp; exact Hrec).
    assert (Hs1 : sends x (trace w1) = sends x (trace w))
      by (rewrite (sends_of_forwards x _ _ Hf); reflexivity).
    destruct err as [e|].
    + unfold emit. cbn [final]. split; [exact Hrec1|exact Hs1].
    + destruct p as [p|]; [|split; assumption].
      carry_on (range_Data_keeps x (Data p)) Hrec1 Hs1.
  - cbn [final]. split; [rewrite Hp; exact Hrec|].
    rewrite (sends_of_forwards x _ _ Hf). reflexivity.
Qed.

Lemma cycles_keeps (x : string) (n : nat) :
  forall w,
    recorded x (pastes w) = true ->
    kept x w (final (cycles E hostString n w)).
Proof.
  induction n as [|n IH]; intros w Hrec; [split; [exact Hrec|reflexivity]|].
  cbn [cycles]. unfold bind at 1.
  destruct (cycle_keeps x w Hrec) as [H1 H2].
  destruct (cycle E hostString w) as [[] w1|msg w1]; cbn [final] in *.
  - carry_on (IH) H1 H2.
  - split; assumption.
Qed.

End Pipeline.

Lemma checkID_ret (E : Env) (id : string) (w w1 : World)
  (r : bool * option error) :
  checkID E id w = Ret r w1 -> pastes w1 = pastes w /\ trace w1 = trace w.
Proof.
  intro H.
  destruct (checkID_frame E id w) as (ok & err & w' & Hc & Hp & Ht & _).
  rewrite H in Hc. inversion Hc; subst. split; assumption.
Qed.

Lemma addID_ret (E : Env) (pasteID : string) (w w2 : World)
  (err : option error) :
  addID E pasteID w = Ret err w2 ->
  trace w2 = trace w /\
  (err <> None -> pastes w2 = pastes w) /\
  (forall x, recorded x (pastes w) = true -> recorded x (pastes w2) = true).
Proof.
  intro H.
  destruct (addID_frame E pasteID w) as (e & w' & Ha & Ht & Hm & _ & Hs).
  rewrite H in Ha. inversion Ha; subst. repeat split; assumption.
Qed.

(** ** The claims *)

(** C1 (the code departs from it).  The scheduler is to skip only the
    candidate whose lookup failed and go on with the batch.  Here the feed
    reports [a] then [b] and the lookup of [a] meets a storage fault: the
    loop is left at [a] (the [break] of line 277), so [b], whose own lookup
    and insert would have met no fault, is neither looked up, nor recorded,
    nor forwarded in this cycle. *)
Theorem lookup_error_ends_batch :
  cycle (with_db_fault 3 "disk I/O error" feed_ab) "http://dg" fresh
  = Ret tt
      (mkWorld []
         4
         [EvLog "failed to query DB for paste_ID: a : disk I/O error";
          EvFetch "from=14.3.2021&to=14.3.2021";
          EvLog "Checking psbdmp.cc for updates"]).
Proof. vm_compute. reflexivity. Qed.

(** C2, as the claim states it, fails: on the empty ledger, with no fault
    anywhere, [checkID] answers [true] for an identifier that was never
    recorded. *)
Lemma checkID_true_on_empty_ledger :
  checkID (calm JNull) "a" fresh = Ret (true, None) (advance 2 fresh) /\
  recorded "a" (pastes fresh) = false.
Proof. split; reflexivity. Qed.

(** C2 (amended).  For every identifier, [checkID] returns, changes no row
    of the ledger, and answers [true] exactly when it reports no error,
    which is exactly when neither of its two storage calls met a fault:
    the answer does not depend on whether the identifier is recorded. *)
Theorem checkID_reports_lookup_health (E : Env) (id : string) (w : World) :
  exists ok err w',
    checkID E id w = Ret (ok, err) w' /\
    pastes w' = pastes w /\
    (ok = true <-> err = None) /\
    (err = None <->
     db_fault E (clock w) = None /\ db_fault E (S (clock w)) = None).
Proof.
  rewrite checkID_run.
  destruct (db_fault E (clock w)) as [m|] eqn:H0.
  - exists false, (Some (Err m)), (advance 1 w).
    repeat split; try discriminate. intros [H _]. discriminate.
  - destruct (db_fault E (S (clock w))) as [m|] eqn:H1.
    + exists false, (Some (Err m)), (advance 2 w).
      repeat split; try discriminate. intros [_ H]. discriminate.
    + exists true, None, (advance 2 w). repeat split.
Qed.

(** C3 (the code departs from it).  After three failed attempts [getDaily]
    is to return the last error.  With three transport failures it calls
    [client.Do] three times and no fourth, and then panics on the nil response
    instead of returning; with three 502 answers it goes on to read the body
    of the third and, when that body parses, returns it with no error. *)
Theorem retries_exhausted_without_error :
  getDaily feed_down fresh
  = Panic nil_dereference
      (mkWorld []
         4
         [EvLog "Encountered error sending HTTP request: dial tcp: connection refused";
          EvFetch "from=14.3.2021&to=14.3.2021";
          EvLog "Encountered error sending HTTP request: dial tcp: connection refused";
          EvFetch "from=14.3.2021&to=14.3.2021";
          EvLog "Encountered error sending HTTP request: dial tcp: connection refused";
          EvFetch "from=14.3.2021&to=14.3.2021"])
  /\
  getDaily (with_feed (DoOk (mkResponse 502 (ReadOk (Parsed (daily_body [])))))
              (calm JNull))
           fresh
  = Ret (Some (mkPastes []), None)
      (mkWorld []
         4
         [EvLog "Encountered 502 error. Retry [3/3]";
          EvFetch "from=14.3.2021&to=14.3.2021";
          EvLog "Encountered 502 error. Retry [2/3]";
          EvFetch "from=14.3.2021&to=14.3.2021";
          EvLog "Encountered 502 error. Retry [1/3]";
          EvFetch "from=14.3.2021&to=14.3.2021"]).
Proof. split; vm_compute; reflexivity. Qed.

(** C4.  A candidate whose insert reports the uniqueness violation is
    skipped silently: the loop goes on with the rest of the batch from the
    world the insert left, in which the trace is what it was before the
    candidate (no call of the forwarder, no log line) and so is the table.
    Hence an identifier that is in the ledger stays in it and is never
    handed to the forwarder again, over any number of later cycles,
    whatever the feed and the storage do. *)
Theorem duplicate_skipped_silently (E : Env) (host : string) :
  (forall id rest w w1 w2 e,
      checkID E (ID_ID id) w = Ret (true, None) w1 ->
      addID E (ID_ID id) w1 = Ret (Some e) w2 ->
      (Error e =? unique_failed) = true ->
      range_Data E host (id :: rest) w = range_Data E host rest w2 /\
      trace w2 = trace w /\ pastes w2 = pastes w) /\
  (forall x n w,
      recorded x (pastes w) = true ->
      recorded x (pastes (final (cycles E host n w))) = true /\
      sends x (trace (final (cycles E host n w))) = sends x (trace w)).
Proof.
  split.
  - intros id rest w w1 w2 e Hc Ha Hdup.
    destruct (checkID_ret _ _ _ _ _ Hc) as [Hp1 Ht1].
    destruct (addID_ret _ _ _ _ _ Ha) as (Ht2 & Hp2 & _).
    split; [|split].
    + cbn [range_Data]. unfold bind at 1. rewrite Hc. cbn [orb negb].
      unfold bind at 1. rewrite Ha, Hdup. reflexivity.
    + rewrite Ht2. exact Ht1.
    + rewrite Hp2 by discriminate. exact Hp1.
  - intros x n w Hrec. exact (cycles_keeps E host x n w Hrec).
Qed.

Lemma duplicate_skipped_silently_witness :
  (range_Data feed_ab "http://dg" [paste_a; paste_b] seen_a
   = range_Data feed_ab "http://dg" [paste_b] (advance 6 seen_a) /\
   trace (advance 6 seen_a) = trace seen_a /\
   pastes (advance 6 seen_a) = pastes seen_a) /\
  (recorded "a" (pastes (final (cycles feed_ab "http://dg" 2 seen_a))) = true /\
   sends "a" (trace (final (cycles feed_ab "http://dg" 2 seen_a)))
   = sends "a" (trace seen_a)).
Proof.
  split.
  - apply (proj1 (duplicate_skipped_silently feed_ab "http://dg")
             paste_a [paste_b] seen_a (advance 2 seen_a) (advance 6 seen_a)
             (Err unique_failed));
      reflexivity.
  - apply (proj2 (duplicate_skipped_silently feed_ab "http://dg")
             "a" 2 seen_a).
    reflexivity.
Defined.

(** C5.  When the loop of [getDaily] settles on a response (after [k] < 3
    answers that were transport errors or 502s) whose body is the documented
    one for the records [ids] (one outer array holding one inner array of
    objects with [id], [tags] and an integer [date]), [getDaily] returns
    exactly [ids], in their order, and no error. *)
Theorem getDaily_unwraps (E : Env) (w : World) (k : nat) (r : Response)
  (ids : list ID) :
  NewRequest E daily_url = None ->
  k < 3 ->
  (forall i, i < k -> retryable (feed E (i + S (clock w))) = true) ->
  feed E (k + S (clock w)) = DoOk r ->
  (StatusCode r =? 502)%Z = false ->
  Body r = ReadOk (Parsed (daily_body ids)) ->
  forallb (fun i => int_range (ID_Date i)) ids = true ->
  exists w', getDaily E w = Ret (Some (mkPastes ids), None) w'.
Proof.
  intros Hnew Hk Hre Hok H502 Hbody Hdates.
  destruct (getDaily_settled E w k r Hnew Hk Hre Hok H502) as (w' & Hrun).
  exists w'. rewrite Hrun, Hbody, (Unmarshal_daily_body ids Hdates).
  reflexivity.
Qed.

Lemma getDaily_unwraps_witness :
  exists w',
    getDaily feed_ab fresh = Ret (Some (mkPastes [paste_a; paste_b]), None) w'.
Proof.
  apply (getDaily_unwraps feed_ab fresh 0
           (mkResponse 200 (ReadOk (Parsed (daily_body [paste_a; paste_b]))))
           [paste_a; paste_b]);
    try reflexivity; lia.
Defined.

(** C6.  When the loop of [getDaily] settles on a response whose body is
    one empty inner array, [getDaily] returns the empty sequence and no
    error, and the cycle that processes it returns with no call of the
    forwarder added and the table as it was. *)
Theorem empty_day (E : Env) (host : string) (w : World) (k : nat)
  (r : Response) :
  NewRequest E daily_url = None ->
  k < 3 ->
  (forall i, i < k -> retryable (feed E (i + S (clock w))) = true) ->
  feed E (k + S (clock w)) = DoOk r ->
  (StatusCode r =? 502)%Z = false ->
  Body r = ReadOk (Parsed (JArray [JArray []])) ->
  (exists w1, getDaily E w = Ret (Some (mkPastes []), None) w1) /\
  (exists w2, cycle E host w = Ret tt w2 /\
              forwards (trace w2) = forwards (trace w) /\
              pastes w2 = pastes w).
Proof.
  intros Hnew Hk Hre Hok H502 Hbody. split.
  - destruct (getDaily_settled E w k r Hnew Hk Hre Hok H502) as (w' & Hrun).
    exists w'. rewrite Hrun, Hbody. reflexivity.
  - unfold cycle, bind at 1, emit.
    set (w0 := mkWorld (pastes w) (clock w) (EvLog _ :: trace w)).
    destruct (getDaily_settled E w0 k r Hnew Hk Hre Hok H502) as (w' & Hrun).
    rewrite Hbody in Hrun.
    change (getDaily E w0 = Ret (Some (mkPastes []), None) w') in Hrun.
    destruct (getDaily_frame E w0) as (Hp & Hf & _).
    rewrite Hrun in Hp, Hf. cbn [final] in Hp, Hf.
    unfold bind. rewrite Hrun. cbn [Data range_Data].
    exists w'. repeat split; assumption.
Qed.

Lemma empty_day_witness :
  (exists w1,
      getDaily (calm (JArray [JArray []])) fresh
      = Ret (Some (mkPastes []), None) w1) /\
  (exists w2,
      cycle (calm (JArray [JArray []])) "http://dg" fresh = Ret tt w2 /\
      forwards (trace w2) = forwards (trace fresh) /\
      pastes w2 = pastes fresh).
Proof.
  apply (empty_day (calm (JArray [JArray []])) "http://dg" fresh 0
           (mkResponse 200 (ReadOk (Parsed (JArray [JArray []])))));
    try reflexivity; lia.
Defined.

(** C7.  A candidate whose insert fails with an error other than the
    uniqueness violation is logged and skipped: the loop goes on with the
    rest of the batch from the world the insert left plus the one log line;
    up to there the candidate has added no row and no other event. *)
Theorem insert_error_skips_one (E : Env) (host : string) (id : ID)
  (rest : list ID) (w w1 w2 : World) (e : error) :
  checkID E (ID_ID id) w = Ret (true, None) w1 ->
  addID E (ID_ID id) w1 = Ret (Some e) w2 ->
  (Error e =? unique_failed) = false ->
  range_Data E host (id :: rest) w
  = range_Data E host rest
      (logged ("error saving paste_ID to DB: " ++ Error e) w2) /\
  trace w2 = trace w /\ pastes w2 = pastes w.
Proof.
  intros Hc Ha Hhard.
  destruct (checkID_ret _ _ _ _ _ Hc) as [Hp1 Ht1].
  destruct (addID_ret _ _ _ _ _ Ha) as (Ht2 & Hp2 & _).
  split; [|split].
  - cbn [range_Data]. unfold bind at 1. rewrite Hc. cbn [orb negb].
    unfold bind at 1. rewrite Ha, Hhard. reflexivity.
  - rewrite Ht2. exact Ht1.
  - rewrite Hp2 by discriminate. exact Hp1.
Qed.

Lemma insert_error_skips_one_witness :
  range_Data (with_db_fault 2 "disk I/O error" feed_ab) "http://dg"
    [paste_a; paste_b] fresh
  = range_Data (with_db_fault 2 "disk I/O error" feed_ab) "http://dg"
      [paste_b]
      (logged ("error saving paste_ID to DB: " ++ Error (Err "disk I/O error"))
              (advance 3 fresh)) /\
  trace (advance 3 fresh) = trace fresh /\
  pastes (advance 3 fresh) = pastes fresh.
Proof.
  apply (insert_error_skips_one (with_db_fault 2 "disk I/O error" feed_ab)
           "http://dg" paste_a [paste_b] fresh (advance 2 fresh)
           (advance 3 fresh) (Err "disk I/O error"));
    reflexivity.
Defined.

(** C8.  When the insert of a candidate went through, so that its
    identifier is in the table, and the forwarder then reports a failure,
    [send] has changed no row; the failure is logged and the loop goes on
    with the rest of the batch; and from there on, through the rest of the
    batch and any number of later cycles, the identifier stays in the
    table and the forwarder is never called for it again: the one call that
    failed remains the only one added. *)
Theorem forward_failure_keeps_record (E : Env) (host : string) (id : ID)
  (rest : list ID) (w w1 w2 w3 : World) (e : error) (n : nat) :
  checkID E (ID_ID id) w = Ret (true, None) w1 ->
  addID E (ID_ID id) w1 = Ret None w2 ->
  recorded (ID_ID id) (pastes w2) = true ->
  send E id host w2 = Ret (Some e) w3 ->
  pastes w3 = pastes w2 /\
  range_Data E host (id :: rest) w
  = range_Data E host rest (logged (Error e) w3) /\
  sends (ID_ID id) (trace w3) = S (sends (ID_ID id) (trace w)) /\
  kept (ID_ID id) w3
       (final ((range_Data E host (id :: rest) ;; cycles E host n) w)).
Proof.
  intros Hc Ha Hrec Hs.
  destruct (checkID_ret _ _ _ _ _ Hc) as [Hp1 Ht1].
  destruct (addID_ret _ _ _ _ _ Ha) as (Ht2 & _ & _).
  destruct (send_frame E id host w2) as [Hps Hfs].
  rewrite Hs in Hps, Hfs. cbn [final] in Hps, Hfs.
  assert (Hstep : range_Data E host (id :: rest) w
                  = range_Data E host rest (logged (Error e) w3)).
  { cbn [range_Data]. unfold bind at 1. rewrite Hc. cbn [orb negb].
    unfold bind at 1. rewrite Ha. unfold bind at 1. rewrite Hs.
    reflexivity. }
  split; [exact Hps|]. split; [exact Hstep|]. split.
  - rewrite (sends_same _ _ _ Hfs), Ht2, Ht1. reflexivity.
  - unfold bind. rewrite Hstep.
    assert (Hrec3 : recorded (ID_ID id) (pastes (logged (Error e) w3)) = true)
      by (cbn [logged pastes]; rewrite Hps; exact Hrec).
    destruct (range_Data_keeps E host (ID_ID id) rest _ Hrec3) as [H1 H2].
    destruct (range_Data E host rest (logged (Error e) w3)) as [[] w4|msg w4];
      cbn [final] in *.
    + carry_on (cycles_keeps E host (ID_ID id) n) H1 H2.
    + split; assumption.
Qed.

Lemma forward_failure_keeps_record_witness :
  pastes a_sent = pastes a_recorded /\
  range_Data host_down "http://dg" [paste_a; paste_b] fresh
  = range_Data host_down "http://dg" [paste_b]
      (logged (Error (Err "connection refused")) a_sent) /\
  sends "a" (trace a_sent) = S (sends "a" (trace fresh)) /\
  kept "a" a_sent
       (final ((range_Data host_down "http://dg" [paste_a; paste_b] ;;
                cycles host_down "http://dg" 2) fresh)).
Proof.
  apply (forward_failure_keeps_record host_down "http://dg" paste_a [paste_b]
           fresh (advance 2 fresh) a_recorded a_sent
           (Err "connection refused") 2);
    reflexivity.
Defined.

(** C9.  When the loop of [getDaily] settles on a response whose body is
    the empty outer array, [getDaily] does not return, neither an empty
    result nor an error: indexing [tempSlice[0]] panics. *)
Theorem empty_outer_array_panics (E : Env) (w : World) (k : nat)
  (r : Response) :
  NewRequest E daily_url = None ->
  k < 3 ->
  (forall i, i < k -> retryable (feed E (i + S (clock w))) = true) ->
  feed E (k + S (clock w)) = DoOk r ->
  (StatusCode r =? 502)%Z = false ->
  Body r = ReadOk (Parsed (JArray [])) ->
  (exists w', getDaily E w = Panic index_out_of_range w') /\
  (forall p err w', getDaily E w <> Ret (p, err) w').
Proof.
  intros Hnew Hk Hre Hok H502 Hbody.
  destruct (getDaily_settled E w k r Hnew Hk Hre Hok H502) as (w' & Hrun).
  rewrite Hbody in Hrun.
  change (getDaily E w = Panic index_out_of_range w') in Hrun.
  split.
  - exists w'. exact Hrun.
  - intros p err w0 H. rewrite Hrun in H. discriminate.
Qed.

Lemma empty_outer_array_panics_witness :
  (exists w', getDaily (calm (JArray [])) fresh = Panic index_out_of_range w') /\
  (forall p err w', getDaily (calm (JArray [])) fresh <> Ret (p, err) w').
Proof.
  apply (empty_outer_array_panics (calm (JArray [])) fresh 0
           (mkResponse 200 (ReadOk (Parsed (JArray [])))));
    try reflexivity; lia.
Defined.

(** C10.  When the request could be built and each of the three attempts
    ends in a transport error that leaves the response nil, [getDaily] makes
    its three calls of [client.Do] and then panics on the nil response: it
    takes no error-return path.  So, when the request could be built,
    [getDaily] returns only if one of the three attempts produced a
    response. *)
Theorem no_response_panics (E : Env) (w : World) :
  NewRequest E daily_url = None ->
  ((forall i, i < 3 -> has_response (feed E (i + S (clock w))) = false) ->
   exists w', getDaily E w = Panic nil_dereference w' /\
              fetches (trace w') = 3 + fetches (trace w)) /\
  (forall p err w',
      getDaily E w = Ret (p, err) w' ->
      exists i, i < 3 /\ has_response (feed E (i + S (clock w))) = true).
Proof.
  intro Hnew. unfold daily_url in Hnew. split.
  - intro Hall.
    unfold getDaily, bind at 1, tick. cbn [clock pastes trace].
    rewrite Hnew. unfold bind.
    match goal with
    | |- context [attempts E ?pl 3 0 None None ?w0] =>
        destruct (attempts_no_response E pl 3 0 None w0 Hall)
          as (err' & w' & Hrun & Hn)
    end.
    rewrite Hrun. cbn [fst]. exists w'. split; [reflexivity|exact Hn].
  - intros p err w' Hret.
    unfold getDaily, bind at 1, tick in Hret. cbn [clock pastes trace] in Hret.
    rewrite Hnew in Hret. unfold bind in Hret.
    match type of Hret with
    | context [attempts E ?pl 3 0 None None ?w0] =>
        destruct (attempts E pl 3 0 None None w0) as [[res err0] w1|msg w1]
          eqn:Hrun; [|discriminate]
    end.
    cbn [fst] in Hret.
    destruct res as [res|]; [|discriminate].
    apply attempts_response_origin in Hrun.
    destruct Hrun as [Habs|Hex]; [discriminate|exact Hex].
Qed.

Lemma no_response_panics_witness :
  exists w',
    getDaily feed_down fresh = Panic nil_dereference w' /\
    fetches (trace w') = 3 + fetches (trace fresh).
Proof.
  apply (proj1 (no_response_panics feed_down fresh eq_refl)).
  intros i Hi. reflexivity.
Defined.

(** ** Relations that every step of the loop respects *)

Section Respect.

Variable E : Env.
Variable host : string.
Variable R : World -> World -> Prop.

Hypothesis R_refl : forall w, R w w.
Hypothesis R_trans : forall w1 w2 w3, R w1 w2 -> R w2 w3 -> R w1 w3.
Hypothesis R_log : forall line w, R w (logged line w).
Hypothesis R_checkID : forall x w, R w (final (checkID E x w)).
Hypothesis R_addID : forall x w, R w (final (addID E x w)).
Hypothesis R_send : forall id w, R w (final (send E id host w)).
Hypothesis R_getDaily : forall w, R w (final (getDaily E w)).

Lemma range_Data_respects (data : list ID) :
  forall w, R w (final (range_Data E host data w)).
Proof.
  induction data as [|id rest IH]; intro w; [apply R_refl|].
  cbn [range_Data]. unfold bind at 1.
  pose proof (R_checkID (ID_ID id) w) as Hc.
  destruct (checkID E (ID_ID id) w) as [[ok err] w1|msg w1];
    cbn [final] in Hc; [|exact Hc].
  destruct ((match err with Some _ => true | None => false end) || negb ok).
  - apply R_trans with (1 := Hc). apply R_log.
  - unfold bind at 1.
    pose proof (R_addID (ID_ID id) w1) as Ha.
    destruct (addID E (ID_ID id) w1) as [err2 w2|msg w2];
      cbn [final] in Ha; [|exact (R_trans _ _ _ Hc Ha)].
    assert (H2 : R w w2) by exact (R_trans _ _ _ Hc Ha).
    destruct err2 as [e|].
    + destruct (negb (Error e =? unique_failed)).
      * unfold bind at 1, emit.
        apply R_trans with (2 := IH _). apply R_trans with (1 := H2).
        apply R_log.
      * apply R_trans with (1 := H2). apply IH.
    + unfold bind at 1.
      pose proof (R_send id w2) as Hs.
      destruct (send E id host w2) as [err3 w3|msg w3];
        cbn [final] in Hs; [|exact (R_trans _ _ _ H2 Hs)].
      assert (H3 : R w w3) by exact (R_trans _ _ _ H2 Hs).
      destruct err3 as [e|].
      * unfold bind at 1, emit.
        apply R_trans with (2 := IH _). apply R_trans with (1 := H3).
        apply R_log.
      * apply R_trans with (1 := H3). apply IH.
Qed.

Lemma cycle_respects (w : World) : R w (final (cycle E host w)).
Proof.
  unfold cycle, bind at 1, emit. unfold bind at 1.
  assert (H0 : R w (logged "Checking psbdmp.cc for updates" w))
    by apply R_log.
  pose proof (R_getDaily (logged "Checking psbdmp.cc for updates" w)) as Hg.
  unfold logged in H0, Hg.
  match type of Hg with
  | context [getDaily E ?w0] =>
      destruct (getDaily E w0) as [[p err] w1|msg w1]
  end; cbn [final] in Hg; [|exact (R_trans _ _ _ H0 Hg)].
  assert (H1 : R w w1) by exact (R_trans _ _ _ H0 Hg).
  destruct err as [e|].
  - unfold emit. cbn [final]. apply R_trans with (1 := H1). apply R_log.
  - destruct p as [p|]; [|exact H1].
    apply R_trans with (1 := H1). apply range_Data_respects.
Qed.

Lemma cycles_respects (n : nat) :
  forall w, R w (final (cycles E host n w)).
Proof.
  induction n as [|n IH]; intro w; [apply R_refl|].
  cbn [cycles]. unfold bind at 1.
  pose proof (cycle_respects w) as Hc.
  destruct (cycle E host w) as [[] w1|msg w1]; cbn [final] in Hc;
    [|exact Hc].
  apply R_trans with (1 := Hc). apply IH.
Qed.

End Respect.

(** ** The table under [addID] *)

Lemma addID_table (E : Env) (x : string) (w : World) :
  pastes (final (addID E x w)) = pastes w \/
  (recorded x (pastes w) = false /\
   pastes (final (addID E x w))
   = (pastes w ++ [mkRow (next_rowid (pastes w)) x])%list).
Proof.
  rewrite addID_run.
  destruct (db_fault E (clock w)); [left; reflexivity|].
  destruct (db_fault E (1 + clock w)); [left; reflexivity|].
  destruct (db_fault E (2 + clock w)); [left; reflexivity|].
  destruct (recorded x (pastes w)) eqn:Hrec; [left; reflexivity|].
  destruct (db_fault E (3 + clock w)); [left; reflexivity|].
  right. split; reflexivity.
Qed.

Lemma checkID_table (E : Env) (x : string) (w : World) :
  pastes (final (checkID E x w)) = pastes w /\
  trace (final (checkID E x w)) = trace w.
Proof.
  destruct (checkID_frame E x w) as (ok & err & w' & Hc & Hp & Ht & _).
  rewrite Hc. split; assumption.
Qed.

Lemma addID_trace (E : Env) (x : string) (w : World) :
  trace (final (addID E x w)) = trace w.
Proof.
  destruct (addID_frame E x w) as (err & w' & Ha & Ht & _).
  rewrite Ha. exact Ht.
Qed.

Lemma recorded_false_not_in (x : string) (rows : list Row) :
  recorded x rows = false -> ~ In x (map paste_ID rows).
Proof.
  unfold recorded. intros H Hin.
  apply in_map_iff in Hin. destruct Hin as (r & Hr & Hin).
  assert (existsb (fun r0 => paste_ID r0 =? x) rows = true).
  { apply existsb_exists. exists r. split; [exact Hin|].
    rewrite Hr. apply String.eqb_refl. }
  congruence.
Qed.

Lemma recorded_true_in (x : string) (rows : list Row) :
  recorded x rows = true <-> In x (map paste_ID rows).
Proof.
  split.
  - unfold recorded. intro H. apply existsb_exists in H.
    destruct H as (r & Hin & Heq). apply String.eqb_eq in Heq.
    apply in_map_iff. exists r. split; assumption.
  - intro Hin. destruct (recorded x rows) eqn:H; [reflexivity|].
    exfalso. exact (recorded_false_not_in x rows H Hin).
Qed.

(** Whatever holds of the table and is kept by adding a row for an
    identifier that is not recorded, is kept by any number of cycles. *)
Lemma cycles_table_invariant (E : Env) (host : string)
  (I : list Row -> Prop) :
  (forall rows x, I rows -> recorded x rows = false ->
                  I (rows ++ [mkRow (next_rowid rows) x])%list) ->
  forall n w, I (pastes w) -> I (pastes (final (cycles E host n w))).
Proof.
  intros Hadd n w.
  apply (cycles_respects E host (fun w w' => I (pastes w) -> I (pastes w'))).
  - auto.
  - auto.
  - intros line w0 H. exact H.
  - intros x w0 H. rewrite (proj1 (checkID_table E x w0)). exact H.
  - intros x w0 H. destruct (addID_table E x w0) as [Heq|[Hrec Heq]];
      rewrite Heq; auto.
  - intros id w0 H. rewrite (proj1 (send_frame E id host w0)). exact H.
  - intros w0 H. rewrite (proj1 (getDaily_frame E w0)). exact H.
Qed.

Lemma send_returns (E : Env) (id : ID) (host : string) (w : World) :
  NewRequest E (host ++ "/event") = None ->
  exists err w', send E id host w = Ret err w'.
Proof.
  intro Hurl. unfold send, post, bind, emit, tick, ret.
  cbn [clock pastes trace].
  destruct (Marshal E (ID_ID id)) as [body [msg|]]; [eauto|].
  rewrite Hurl. cbn [clock pastes trace].
  destruct (deliver E (clock w)); eauto.
Qed.

(** ** Further properties of the ledger *)

(** X1.  Recording is idempotent: when the storage meets no fault, a first
    [addID] of an identifier that is not in the table adds exactly one row
    for it and reports no error, and a second [addID] of the same identifier
    reports the uniqueness violation and adds nothing. *)
Theorem second_addID_reports_duplicate (E : Env) (x : string) (w : World) :
  recorded x (pastes w) = false ->
  (forall i, i < 7 -> db_fault E (i + clock w) = None) ->
  addID E x w
  = Ret None (mkWorld (pastes w ++ [mkRow (next_rowid (pastes w)) x])
                      (4 + clock w) (trace w)) /\
  (addID E x ;; addID E x) w
  = Ret (Some (Err unique_failed))
        (mkWorld (pastes w ++ [mkRow (next_rowid (pastes w)) x])
                 (8 + clock w) (trace w)).
Proof.
  intros Hnew Hok.
  assert (H1 : addID E x w
               = Ret None
                   (mkWorld (pastes w ++ [mkRow (next_rowid (pastes w)) x])
                            (4 + clock w) (trace w))).
  { assert (H0 := Hok 0 ltac:(lia)). change (0 + clock w) with (clock w) in H0.
    rewrite addID_run.
    rewrite H0, (Hok 1), (Hok 2), Hnew, (Hok 3) by lia. reflexivity. }
  split; [exact H1|].
  unfold bind. rewrite H1, addID_run. cbn [clock pastes trace].
  replace (db_fault E (4 + clock w)) with (@None string)
    by (symmetry; apply (Hok 4); lia).
  replace (db_fault E (1 + (4 + clock w))) with (@None string)
    by (symmetry; apply (Hok 5); lia).
  replace (db_fault E (2 + (4 + clock w))) with (@None string)
    by (symmetry; apply (Hok 6); lia).
  assert (Hrec : recorded x (pastes w ++ [mkRow (next_rowid (pastes w)) x])
                 = true).
  { rewrite recorded_app. unfold recorded at 2. cbn [existsb paste_ID].
    rewrite String.eqb_refl. apply orb_true_r. }
  rewrite Hrec. reflexivity.
Qed.

Lemma second_addID_reports_duplicate_witness :
  addID feed_ab "a" fresh = Ret None (mkWorld [mkRow 1 "a"] 4 []) /\
  (addID feed_ab "a" ;; addID feed_ab "a") fresh
  = Ret (Some (Err unique_failed)) (mkWorld [mkRow 1 "a"] 8 []).
Proof.
  apply (second_addID_reports_duplicate feed_ab "a" fresh).
  - reflexivity.
  - intros i Hi. reflexivity.
Defined.

(** X2.  The uniqueness of [paste_ID] is an invariant of the loop: if no two
    rows of the table hold the same identifier, none do after any number of
    cycles, whatever the feed, the storage and the destination do. *)
Theorem paste_IDs_stay_unique (E : Env) (host : string) (n : nat)
  (w : World) :
  NoDup (map paste_ID (pastes w)) ->
  NoDup (map paste_ID (pastes (final (cycles E host n w)))).
Proof.
  apply (cycles_table_invariant E host
           (fun rows => NoDup (map paste_ID rows))).
  intros rows x Hnd Hnew.
  rewrite map_app. cbn [map paste_ID].
  apply NoDup_app.
  - exact Hnd.
  - constructor; [intros []|constructor].
  - intros y Hy [Heq|[]]. subst y.
    exact (recorded_false_not_in x rows Hnew Hy).
Qed.

Lemma paste_IDs_stay_unique_witness :
  NoDup (map paste_ID (pastes (final (cycles feed_ab "http://dg" 2 seen_a)))).
Proof.
  apply (paste_IDs_stay_unique feed_ab "http://dg" 2 seen_a).
  simpl. constructor; [intros []|constructor].
Defined.

(** X3.  The ledger is append-only: after any number of cycles the table
    is the table the run started with, followed by the rows added since; no
    row is ever removed, changed or moved. *)
Theorem ledger_only_grows (E : Env) (host : string) (n : nat) (w : World) :
  exists more,
    pastes (final (cycles E host n w)) = (pastes w ++ more)%list.
Proof.
  apply (cycles_respects E host
           (fun w w' => exists more, pastes w' = (pastes w ++ more)%list)).
  - intro w0. exists []. now rewrite app_nil_r.
  - intros w1 w2 w3 [m1 H1] [m2 H2]. exists (m1 ++ m2)%list.
    rewrite H2, H1, app_assoc. reflexivity.
  - intros line w0. exists []. now rewrite app_nil_r.
  - intros x w0. exists []. rewrite (proj1 (checkID_table E x w0)).
    now rewrite app_nil_r.
  - intros x w0. destruct (addID_table E x w0) as [Heq|[_ Heq]].
    + exists []. rewrite Heq. now rewrite app_nil_r.
    + eexists. exact Heq.
  - intros id w0. exists []. rewrite (proj1 (send_frame E id host w0)).
    now rewrite app_nil_r.
  - intros w0. exists []. rewrite (proj1 (getDaily_frame E w0)).
    now rewrite app_nil_r.
Qed.



(** ** Further properties of the fetcher *)

Lemma attempts_settles_fetches (E : Env) (payload : string) (r : Response)
  (k : nat) :
  forall left retries res err w,
    k < left ->
    (forall i, i < k -> retryable (feed E (i + clock w)) = true) ->
    feed E (k + clock w) = DoOk r ->
    (StatusCode r =? 502)%Z = false ->
    fetches (trace (final (attempts E payload left retries res err w)))
    = S k + fetches (trace w).
Proof.
  induction k as [|k IH]; intros left retries res err w Hk Hre Hok H502;
    (destruct left as [|left]; [lia|]);
    cbn [attempts]; unfold bind, tick, emit; cbn [clock pastes trace].
  - simpl in Hok. rewrite Hok, H502. reflexivity.
  - assert (H0 := Hre 0 ltac:(lia)). simpl in H0.
    assert (Hnext : forall res0 err0 w0,
              clock w0 = S (clock w) ->
              fetches (trace w0) = S (fetches (trace w)) ->
              fetches (trace (final (attempts E payload left (S retries)
                                       res0 err0 w0)))
              = S (S k) + fetches (trace w)).
    { intros res0 err0 w0 Hc Hf.
      rewrite (IH left (S retries) res0 err0 w0); [rewrite Hf; lia|lia| | |exact H502].
      - intros i Hi. rewrite Hc.
        replace (i + S (clock w)) with (S i + clock w) by lia.
        apply Hre. lia.
      - rewrite Hc.
        replace (k + S (clock w)) with (S k + clock w) by lia. exact Hok. }
    destruct (feed E (clock w)) as [r0|r0 msg]; simpl in H0.
    + rewrite H0. apply Hnext; reflexivity.
    + apply Hnext; reflexivity.
Qed.

(** X5.  The retry loop is bounded and stops at the first usable answer:
    [getDaily] never calls [client.Do] more than three times, and when the
    answer number [k] (counted from 0, [k] < 3) is the first that is neither
    a transport error nor a 502, it calls [client.Do] exactly [k + 1]
    times. *)
Theorem getDaily_stops_at_first_answer (E : Env) (w : World) :
  fetches (trace (final (getDaily E w))) <= 3 + fetches (trace w) /\
  (forall k r,
      NewRequest E daily_url = None ->
      k < 3 ->
      (forall i, i < k -> retryable (feed E (i + S (clock w))) = true) ->
      feed E (k + S (clock w)) = DoOk r ->
      (StatusCode r =? 502)%Z = false ->
      fetches (trace (final (getDaily E w))) = S k + fetches (trace w)).
Proof.
  split; [exact (proj2 (proj2 (getDaily_frame E w)))|].
  intros k r Hnew Hk Hre Hok H502.
  unfold getDaily, bind at 1, tick. cbn [clock pastes trace].
  unfold daily_url in Hnew. rewrite Hnew. unfold bind.
  match goal with
  | |- context [attempts E ?p 3 0 None None ?w0] =>
      pose proof (attempts_settles_fetches E p r k 3 0 None None w0
                    Hk Hre Hok H502) as Hn;
      destruct (attempts_settles E p r k 3 0 None None w0 Hk Hre Hok H502)
        as (w' & Hrun)
  end.
  rewrite Hrun in Hn |- *. cbn [final trace] in Hn. cbn [fst].
  destruct (Body r) as [msg|body]; [exact Hn|].
  destruct (Unmarshal body) as [[|inner tl]|e]; exact Hn.
Qed.

Lemma getDaily_stops_at_first_answer_witness :
  fetches (trace (final (getDaily (second_try (Parsed (daily_body [paste_a])))
                           fresh)))
  = 2 + fetches (trace fresh).
Proof.
  apply (proj2 (getDaily_stops_at_first_answer
                  (second_try (Parsed (daily_body [paste_a]))) fresh)
           1 (mkResponse 200 (ReadOk (Parsed (daily_body [paste_a])))));
    try reflexivity; try lia.
  intros i Hi. destruct i as [|i]; [reflexivity|lia].
Defined.

(** X6.  A body that does not deserialize is a hard error and is not
    retried into data: when the loop of [getDaily] settles on a response
    whose body [json.Unmarshal] rejects with [e], [getDaily] returns an
    empty [Pastes] together with [e], and the cycle logs that error and
    returns, having changed no row and called no forwarder. *)
Theorem undecodable_body_is_hard_error (E : Env) (host : string)
  (w : World) (k : nat) (r : Response) (body : Payload) (e : error) :
  NewRequest E daily_url = None ->
  k < 3 ->
  (forall i, i < k -> retryable (feed E (i + S (clock w))) = true) ->
  feed E (k + S (clock w)) = DoOk r ->
  (StatusCode r =? 502)%Z = false ->
  Body r = ReadOk body ->
  Unmarshal body = Fail e ->
  (exists w1, getDaily E w = Ret (Some (mkPastes []), Some e) w1) /\
  (exists w2 tr,
      cycle E host w = Ret tt w2 /\
      trace w2 = EvLog ("error checking daily pastes: " ++ Error e) :: tr /\
      pastes w2 = pastes w /\
      forwards (trace w2) = forwards (trace w)).
Proof.
  intros Hnew Hk Hre Hok H502 Hbody Hbad. split.
  - destruct (getDaily_settled E w k r Hnew Hk Hre Hok H502) as (w' & Hrun).
    exists w'. rewrite Hrun, Hbody, Hbad. reflexivity.
  - unfold cycle, bind at 1, emit.
    set (w0 := mkWorld (pastes w) (clock w) (EvLog _ :: trace w)).
    destruct (getDaily_settled E w0 k r Hnew Hk Hre Hok H502) as (w' & Hrun).
    rewrite Hbody, Hbad in Hrun.
    destruct (getDaily_frame E w0) as (Hp & Hf & _).
    rewrite Hrun in Hp, Hf. cbn [final] in Hp, Hf.
    unfold bind. rewrite Hrun. unfold emit.
    eexists _, _. split; [reflexivity|]. cbn [trace pastes].
    split; [reflexivity|]. split; [exact Hp|exact Hf].
Qed.

Lemma undecodable_body_is_hard_error_witness :
  (exists w1,
      getDaily (second_try (Malformed "invalid character '<'")) fresh
      = Ret (Some (mkPastes []), Some (Err "invalid character '<'")) w1) /\
  (exists w2 tr,
      cycle (second_try (Malformed "invalid character '<'")) "http://dg" fresh
      = Ret tt w2 /\
      trace w2
      = EvLog ("error checking daily pastes: "
               ++ Error (Err "invalid character '<'")) :: tr /\
      pastes w2 = pastes fresh /\
      forwards (trace w2) = forwards (trace fresh)).
Proof.
  apply (undecodable_body_is_hard_error
           (second_try (Malformed "invalid character '<'")) "http://dg"
           fresh 1
           (mkResponse 200 (ReadOk (Malformed "invalid character '<'")))
           (Malformed "invalid character '<'")
           (Err "invalid character '<'"));
    try reflexivity; try lia.
  intros i Hi. destruct i as [|i]; [reflexivity|lia].
Defined.

Lemma unmarshal_encoded_slices (ll : list (list ID)) :
  forallb (forallb (fun i => int_range (ID_Date i))) ll = true ->
  unmarshal_items (unmarshal_slice "[]main.ID" unmarshal_ID)
    (map (fun l => JArray (map encode_ID l)) ll)
  = Ok ll.
Proof.
  induction ll as [|l ll IH]; intro H; [reflexivity|].
  apply andb_prop in H. destruct H as [Hl Hll].
  cbn [map unmarshal_items unmarshal_slice].
  rewrite (unmarshal_encoded_items l Hl), (IH Hll). reflexivity.
Qed.

(** X7.  Only the first inner array is used: when the body holds several
    inner arrays of well-formed records, [getDaily] returns the records of
    the first one, in their order, and drops the others without an error. *)
Theorem only_first_inner_array_is_used (E : Env) (w : World) (k : nat)
  (r : Response) (ids : list ID) (others : list (list ID)) :
  NewRequest E daily_url = None ->
  k < 3 ->
  (forall i, i < k -> retryable (feed E (i + S (clock w))) = true) ->
  feed E (k + S (clock w)) = DoOk r ->
  (StatusCode r =? 502)%Z = false ->
  Body r
  = ReadOk (Parsed (JArray (map (fun l => JArray (map encode_ID l))
                                (ids :: others)))) ->
  forallb (forallb (fun i => int_range (ID_Date i))) (ids :: others) = true ->
  exists w', getDaily E w = Ret (Some (mkPastes ids), None) w'.
Proof.
  intros Hnew Hk Hre Hok H502 Hbody Hdates.
  destruct (getDaily_settled E w k r Hnew Hk Hre Hok H502) as (w' & Hrun).
  exists w'. rewrite Hrun, Hbody. unfold Unmarshal.
  cbn [unmarshal_slice].
  rewrite (unmarshal_encoded_slices (ids :: others) Hdates). reflexivity.
Qed.

Lemma only_first_inner_array_is_used_witness :
  exists w',
    getDaily (calm (JArray [JArray [encode_ID paste_a];
                            JArray [encode_ID paste_b]])) fresh
    = Ret (Some (mkPastes [paste_a]), None) w'.
Proof.
  apply (only_first_inner_array_is_used
           (calm (JArray [JArray [encode_ID paste_a];
                          JArray [encode_ID paste_b]]))
           fresh 0
           (mkResponse 200
              (ReadOk (Parsed (JArray [JArray [encode_ID paste_a];
                                       JArray [encode_ID paste_b]]))))
           [paste_a] [[paste_b]]);
    try reflexivity; lia.
Defined.

Lemma unmarshal_items_nil {A} (f : json -> result A) (items : list json) :
  unmarshal_items f items = Ok [] -> items = [].
Proof.
  destruct items as [|j rest]; [reflexivity|].
  cbn [unmarshal_items].
  destruct (f j); [|discriminate].
  destruct (unmarshal_items f rest); discriminate.
Qed.

(** X8.  The index panic of [getDaily] has exactly one cause: when the loop
    settles on a response whose body is the JSON value [j], [getDaily]
    panics on [tempSlice[0]] if and only if [j] is [null] or the empty
    array; for every other value it returns (data or an error). *)
Theorem index_panic_iff_empty_outer (E : Env) (w : World) (k : nat)
  (r : Response) (j : json) :
  NewRequest E daily_url = None ->
  k < 3 ->
  (forall i, i < k -> retryable (feed E (i + S (clock w))) = true) ->
  feed E (k + S (clock w)) = DoOk r ->
  (StatusCode r =? 502)%Z = false ->
  Body r = ReadOk (Parsed j) ->
  ((exists w', getDaily E w = Panic index_out_of_range w') <->
   (j = JNull \/ j = JArray [])) /\
  ((exists res w', getDaily E w = Ret res w') <->
   (j <> JNull /\ j <> JArray [])).
Proof.
  intros Hnew Hk Hre Hok H502 Hbody.
  destruct (getDaily_settled E w k r Hnew Hk Hre Hok H502) as (w' & Hrun).
  rewrite Hbody in Hrun.
  destruct (Unmarshal (Parsed j)) as [[|inner tl]|e] eqn:Hu.
  - assert (Hj : j = JNull \/ j = JArray []).
    { unfold Unmarshal, unmarshal_slice in Hu.
      destruct j; try discriminate; [left; reflexivity|].
      right. apply unmarshal_items_nil in Hu. now rewrite Hu. }
    split; split.
    + intros _. exact Hj.
    + intros _. exists w'. exact Hrun.
    + intros (res & w0 & H). rewrite Hrun in H. discriminate.
    + intros [H1 H2]. destruct Hj; contradiction.
  - assert (Hj : j <> JNull /\ j <> JArray []).
    { split; intro Heq; rewrite Heq in Hu; discriminate. }
    split; split.
    + intros (w0 & H). rewrite Hrun in H. discriminate.
    + intros [H|H]; [elim (proj1 Hj H)|elim (proj2 Hj H)].
    + intros _. exact Hj.
    + intros _. eexists _, _. exact Hrun.
  - assert (Hj : j <> JNull /\ j <> JArray []).
    { split; intro Heq; rewrite Heq in Hu; discriminate. }
    split; split.
    + intros (w0 & H). rewrite Hrun in H. discriminate.
    + intros [H|H]; [elim (proj1 Hj H)|elim (proj2 Hj H)].
    + intros _. exact Hj.
    + intros _. eexists _, _. exact Hrun.
Qed.

Lemma index_panic_iff_empty_outer_witness :
  ((exists w', getDaily (calm JNull) fresh = Panic index_out_of_range w') <->
   (JNull = JNull \/ JNull = JArray [])) /\
  ((exists res w', getDaily (calm JNull) fresh = Ret res w') <->
   (JNull <> JNull /\ JNull <> JArray [])).
Proof.
  apply (index_panic_iff_empty_outer (calm JNull) fresh 0
           (mkResponse 200 (ReadOk (Parsed JNull))) JNull);
    try reflexivity; lia.
Defined.

(** X9.  [getDaily] never returns a nil [Pastes] pointer together with a
    nil error: whenever it returns without an error, the pointer is set.  So
    the caller's [p.Data] (line 273), reached only when the error is nil,
    never dereferences nil. *)
Theorem getDaily_never_nil_nil (E : Env) (w w' : World)
  (p : option Pastes) :
  getDaily E w = Ret (p, None) w' -> exists ps, p = Some ps.
Proof.
  unfold getDaily, bind at 1, tick. cbn [clock pastes trace].
  destruct (NewRequest E _) as [msg|].
  - unfold bind, emit, ret. intro H. discriminate.
  - unfold bind.
    match goal with
    | |- context [attempts E ?pl 3 0 None None ?w0] =>
        destruct (attempts E pl 3 0 None None w0) as [[res err] w1|msg w1]
    end; [|intro H; discriminate].
    cbn [fst].
    destruct res as [res|]; [|intro H; discriminate].
    destruct (Body res) as [msg|body]; [intro H; discriminate|].
    destruct (Unmarshal body) as [[|inner tl]|e]; intro H;
      try discriminate.
    unfold ret in H. inversion H. eauto.
Qed.

Lemma getDaily_never_nil_nil_witness :
  exists ps, Some (mkPastes [paste_a; paste_b]) = Some ps.
Proof.
  apply (getDaily_never_nil_nil feed_ab fresh (advance 2
           (mkWorld [] 0 [EvFetch "from=14.3.2021&to=14.3.2021"]))
           (Some (mkPastes [paste_a; paste_b]))).
  reflexivity.
Defined.

(** ** Further properties of the forwarder *)

Lemma attempts_posts (E : Env) (payload : string) (left : nat) :
  forall retries res err w,
    posts (trace (final (attempts E payload left retries res err w)))
    = posts (trace w).
Proof.
  induction left as [|left IH]; intros retries res err w; [reflexivity|].
  cbn [attempts]. unfold bind, tick, emit. cbn [clock pastes trace].
  destruct (feed E (clock w)) as [r|r msg].
  - destruct (StatusCode r =? 502)%Z; [|reflexivity].
    rewrite IH. reflexivity.
  - rewrite IH. reflexivity.
Qed.

Lemma getDaily_posts (E : Env) (w : World) :
  posts (trace (final (getDaily E w))) = posts (trace w).
Proof.
  unfold getDaily, bind at 1, tick. cbn [clock pastes trace].
  destruct (NewRequest E _) as [msg|]; [reflexivity|].
  unfold bind.
  match goal with
  | |- context [attempts E ?p 3 0 None None ?w0] =>
      pose proof (attempts_posts E p 3 0 None None w0) as Hp;
      destruct (attempts E p 3 0 None None w0) as [[res err] w'|msg w']
  end; cbn [final trace] in Hp; [|exact Hp].
  cbn [fst].
  destruct res as [res|]; [|exact Hp].
  destruct (Body res) as [msg|body]; [exact Hp|].
  destruct (Unmarshal body) as [[|inner tl]|e]; exact Hp.
Qed.

Lemma send_posts (E : Env) (id : ID) (host : string) (w : World) :
  posts (trace (final (send E id host w))) = posts (trace w) \/
  posts (trace (final (send E id host w)))
  = (host ++ "/event", fst (Marshal E (ID_ID id))) :: posts (trace w).
Proof.
  unfold send, post, bind, emit, tick, ret, panic. cbn [clock pastes trace].
  destruct (Marshal E (ID_ID id)) as [body [msg|]]; [left; reflexivity|].
  destruct (NewRequest E _); [left; reflexivity|].
  cbn [clock pastes trace fst].
  destruct (deliver E (clock w)); right; reflexivity.
Qed.

Lemma one_post_per_send_same (E : Env) (host : string) (w w' : World) :
  posts (trace w') = posts (trace w) ->
  forwards (trace w') = forwards (trace w) ->
  one_post_per_send E host w w'.
Proof.
  intros Hp Hf. exists [], []. repeat split; auto.
Qed.

Lemma one_post_per_send_trans (E : Env) (host : string) (w1 w2 w3 : World) :
  one_post_per_send E host w1 w2 -> one_post_per_send E host w2 w3 ->
  one_post_per_send E host w1 w3.
Proof.
  intros (ps1 & ss1 & Hp1 & Hf1 & Hl1 & Ha1)
         (ps2 & ss2 & Hp2 & Hf2 & Hl2 & Ha2).
  exists (ps2 ++ ps1)%list, (ss2 ++ ss1)%list.
  split; [rewrite Hp2, Hp1, app_assoc; reflexivity|].
  split; [rewrite Hf2, Hf1, app_assoc; reflexivity|].
  split; [rewrite !length_app; lia|].
  apply Forall_app. split.
  - eapply Forall_impl; [|exact Ha2].
    intros p [Hu (x & Hx & Hs)]. split; [exact Hu|].
    exists x. split; [apply in_or_app; left; exact Hx|exact Hs].
  - eapply Forall_impl; [|exact Ha1].
    intros p [Hu (x & Hx & Hs)]. split; [exact Hu|].
    exists x. split; [apply in_or_app; right; exact Hx|exact Hs].
Qed.

Lemma cycles_one_post_per_send (E : Env) (host : string) (n : nat)
  (w : World) :
  one_post_per_send E host w (final (cycles E host n w)).
Proof.
  apply (cycles_respects E host (one_post_per_send E host)).
  - intro w0. apply one_post_per_send_same; reflexivity.
  - apply one_post_per_send_trans.
  - intros line w0. apply one_post_per_send_same; reflexivity.
  - intros x w0. destruct (checkID_table E x w0) as [_ Ht].
    apply one_post_per_send_same; rewrite Ht; reflexivity.
  - intros x w0. pose proof (addID_trace E x w0) as Ht.
    apply one_post_per_send_same; rewrite Ht; reflexivity.
  - intros id w0. destruct (send_frame E id host w0) as [_ Hf].
    destruct (send_posts E id host w0) as [Hp|Hp].
    + exists [], [ID_ID id]. repeat split; auto. simpl. lia.
    + exists [(host ++ "/event", fst (Marshal E (ID_ID id)))], [ID_ID id].
      repeat split; auto.
      constructor; [|constructor]. split; [reflexivity|].
      exists (ID_ID id). split; [left; reflexivity|reflexivity].
  - intros w0. destruct (getDaily_frame E w0) as (_ & Hf & _).
    apply one_post_per_send_same; [apply getDaily_posts|exact Hf].
Qed.

(** X10.  The forwarder makes one attempt and only to the configured
    destination: over any number of cycles, whatever the outside does, each
    new POST went to [host]/event, carries the [json.Marshal] text of an
    identifier that was handed to [send] in that run, and there are never
    more new POSTs than calls of [send] (no retry, no second
    destination). *)
Theorem forwarder_posts_once_to_host (E : Env) (host : string) (n : nat)
  (w : World) :
  exists ps ss,
    posts (trace (final (cycles E host n w))) = (ps ++ posts (trace w))%list /\
    forwards (trace (final (cycles E host n w)))
    = (ss ++ forwards (trace w))%list /\
    length ps <= length ss /\
    Forall (fun p => fst p = host ++ "/event" /\
                     exists x, In x ss /\ snd p = fst (Marshal E x)) ps.
Proof. exact (cycles_one_post_per_send E host n w). Qed.

(** X11.  [post] overwrites the error of [http.NewRequest] unread (lines
    201-206).  When the destination URL does not parse, the first candidate
    that gets as far as the forwarder makes the loop panic on the nil
    request: by then its insert has run, and no POST has been sent. *)
Theorem bad_host_url_panics_after_recording (E : Env) (host : string)
  (id : ID) (rest : list ID) (w w1 w2 : World) (body msg : string) :
  checkID E (ID_ID id) w = Ret (true, None) w1 ->
  addID E (ID_ID id) w1 = Ret None w2 ->
  Marshal E (ID_ID id) = (body, None) ->
  NewRequest E (host ++ "/event") = Some msg ->
  range_Data E host (id :: rest) w
  = Panic nil_dereference
      (mkWorld (pastes w2) (clock w2) (EvSend (ID_ID id) host :: trace w2)) /\
  posts (trace w2) = posts (trace w).
Proof.
  intros Hc Ha Hm Hurl.
  destruct (checkID_ret _ _ _ _ _ Hc) as [_ Ht1].
  destruct (addID_ret _ _ _ _ _ Ha) as (Ht2 & _ & _).
  split.
  - cbn [range_Data]. unfold bind at 1. rewrite Hc. cbn [orb negb].
    unfold bind at 1. rewrite Ha. unfold bind at 1.
    unfold send, post, bind, emit. rewrite Hm. cbn [pastes clock trace].
    rewrite Hurl. reflexivity.
  - rewrite Ht2, Ht1. reflexivity.
Qed.

Lemma bad_host_url_panics_after_recording_witness :
  range_Data (with_bad_url "http://d g/event" "invalid character in host name"
                feed_ab)
    "http://d g" [paste_a; paste_b] fresh
  = Panic nil_dereference
      (mkWorld (pastes a_recorded) (clock a_recorded)
               (EvSend (ID_ID paste_a) "http://d g" :: trace a_recorded)) /\
  posts (trace a_recorded) = posts (trace fresh).
Proof.
  apply (bad_host_url_panics_after_recording
           (with_bad_url "http://d g/event" "invalid character in host name"
              feed_ab)
           "http://d g" paste_a [paste_b] fresh (advance 2 fresh) a_recorded
           (dquote ++ "a" ++ dquote) "invalid character in host name");
    reflexivity.
Defined.

(** ** The loop on a healthy store *)

Lemma accepted_spec (ids : list string) :
  forall rows,
    NoDup (accepted rows ids) /\
    (forall x, In x (accepted rows ids) <->
               In x ids /\ recorded x rows = false) /\
    map paste_ID (ledger_after rows ids)
    = (map paste_ID rows ++ accepted rows ids)%list.
Proof.
  induction ids as [|x0 rest IH]; intro rows.
  - cbn [accepted ledger_after]. split; [constructor|]. split.
    + intro x. split; [intros []|intros [[] _]].
    + now rewrite app_nil_r.
  - cbn [accepted ledger_after].
    destruct (recorded x0 rows) eqn:Hrec.
    + destruct (IH rows) as (Hnd & Hin & Hmap).
      split; [exact Hnd|]. split; [|exact Hmap].
      intro x. rewrite Hin. split.
      * intros [H1 H2]. split; [right; exact H1|exact H2].
      * intros [[Heq|H1] H2]; [subst x0; congruence|split; assumption].
    + set (rows2 := (rows ++ [mkRow (next_rowid rows) x0])%list).
      destruct (IH rows2) as (Hnd & Hin & Hmap).
      assert (Hrec2 : forall x, recorded x rows2
                                = recorded x rows || (x0 =? x)).
      { intro x. unfold rows2. rewrite recorded_app.
        unfold recorded at 2. cbn [existsb paste_ID].
        now rewrite orb_false_r. }
      split; [|split].
      * constructor; [|exact Hnd].
        intro H. apply Hin in H. destruct H as [_ H].
        rewrite Hrec2, String.eqb_refl, orb_true_r in H. discriminate.
      * intro x. cbn [In]. rewrite Hin, Hrec2. split.
        -- intros [Heq|[H1 H2]].
           ++ subst x0. split; [left; reflexivity|exact Hrec].
           ++ apply orb_false_elim in H2. split; [right; exact H1|tauto].
        -- intros [[Heq|H1] H2]; [left; exact Heq|].
           destruct (x0 =? x) eqn:Hx.
           ++ left. now apply String.eqb_eq.
           ++ right. split; [exact H1|]. rewrite H2. reflexivity.
      * rewrite Hmap. unfold rows2. rewrite map_app. cbn [map paste_ID].
        rewrite <- app_assoc. reflexivity.
Qed.

Lemma range_Data_healthy (E : Env) (host : string) :
  healthy E ->
  NewRequest E (host ++ "/event") = None ->
  forall data w,
  exists wf,
    range_Data E host data w = Ret tt wf /\
    pastes wf = ledger_after (pastes w) (map ID_ID data) /\
    forwards (trace wf)
    = (rev (accepted (pastes w) (map ID_ID data)) ++ forwards (trace w))%list.
Proof.
  intros Hh Hurl. induction data as [|id rest IH]; intro w.
  - exists w. repeat split.
  - cbn [range_Data map accepted ledger_after]. unfold bind at 1.
    rewrite checkID_run, !Hh. cbn [orb negb]. unfold bind at 1.
    rewrite addID_run, !Hh. cbn [advance pastes clock trace].
    destruct (recorded (ID_ID id) (pastes w)) eqn:Hrec.
    + cbn [Error]. rewrite String.eqb_refl. cbn [negb].
      match goal with
      | |- context [range_Data E host rest ?w0] =>
          destruct (IH w0) as (wf & Hrun & Hp & Hf)
      end.
      exists wf. split; [exact Hrun|]. split; [exact Hp|exact Hf].
    + unfold bind at 1.
      match goal with
      | |- context [send E id host ?w2] =>
          destruct (send_returns E id host w2 Hurl) as (err & w3 & Hs);
          destruct (send_frame E id host w2) as [Hps Hfs]
      end.
      rewrite Hs in Hps, Hfs |- *. cbn [final pastes trace] in Hps, Hfs.
      assert (Hgo : forall w4, pastes w4 = pastes w3 ->
                               forwards (trace w4) = forwards (trace w3) ->
                exists wf, range_Data E host rest w4 = Ret tt wf /\
                  pastes wf
                  = ledger_after
                      (pastes w ++ [mkRow (next_rowid (pastes w)) (ID_ID id)])
                      (map ID_ID rest) /\
                  forwards (trace wf)
                  = (rev (ID_ID id
                          :: accepted
                               (pastes w
                                ++ [mkRow (next_rowid (pastes w)) (ID_ID id)])
                               (map ID_ID rest))
                     ++ forwards (trace w))%list).
      { intros w4 Hp4 Hf4. destruct (IH w4) as (wf & Hrun & Hp & Hf).
        exists wf. split; [exact Hrun|].
        rewrite Hp4, Hps in Hp, Hf. split; [exact Hp|].
        rewrite Hf, Hf4, Hfs. cbn [rev]. rewrite <- app_assoc. reflexivity. }
      destruct err as [e|].
      * unfold bind at 1, emit. apply Hgo; reflexivity.
      * apply Hgo; reflexivity.
Qed.

(** X12.  On a store that meets no fault and with a destination URL that
    parses, a batch is deduplicated exactly: the loop returns; the
    identifiers handed to the forwarder are, in the order of the batch,
    those of the batch that were not in the table, each once (also when the
    batch repeats one); and exactly those are appended to the table.
    Failures of the forwarder itself change none of this. *)
Theorem healthy_batch_dedups (E : Env) (host : string) (data : list ID)
  (w : World) :
  healthy E ->
  NewRequest E (host ++ "/event") = None ->
  exists wf,
    range_Data E host data w = Ret tt wf /\
    forwards (trace wf)
    = (rev (accepted (pastes w) (map ID_ID data)) ++ forwards (trace w))%list /\
    map paste_ID (pastes wf)
    = (map paste_ID (pastes w) ++ accepted (pastes w) (map ID_ID data))%list /\
    NoDup (accepted (pastes w) (map ID_ID data)) /\
    (forall x, In x (accepted (pastes w) (map ID_ID data)) <->
               In x (map ID_ID data) /\ recorded x (pastes w) = false).
Proof.
  intros Hh Hurl.
  destruct (range_Data_healthy E host Hh Hurl data w) as (wf & Hrun & Hp & Hf).
  destruct (accepted_spec (map ID_ID data) (pastes w)) as (Hnd & Hin & Hmap).
  exists wf. split; [exact Hrun|]. split; [exact Hf|].
  split; [rewrite Hp; exact Hmap|]. split; [exact Hnd|exact Hin].
Qed.

Lemma healthy_batch_dedups_witness :
  exists wf,
    range_Data host_down "http://dg" [paste_b; paste_a; paste_b] seen_a
    = Ret tt wf /\
    forwards (trace wf)
    = (rev (accepted (pastes seen_a) ["b"; "a"; "b"])
       ++ forwards (trace seen_a))%list /\
    map paste_ID (pastes wf)
    = (map paste_ID (pastes seen_a)
       ++ accepted (pastes seen_a) ["b"; "a"; "b"])%list /\
    NoDup (accepted (pastes seen_a) ["b"; "a"; "b"]) /\
    (forall x, In x (accepted (pastes seen_a) ["b"; "a"; "b"]) <->
               In x ["b"; "a"; "b"] /\ recorded x (pastes seen_a) = false).
Proof.
  apply (healthy_batch_dedups host_down "http://dg"
           [paste_b; paste_a; paste_b] seen_a).
  - intro t. reflexivity.
  - reflexivity.
Defined.

Lemma once_after (x : string) (w w0 w' : World) :
  sends x (trace w0) = sends x (trace w) -> once x w0 w' -> once x w w'.
Proof.
  intros H [H1|[H1 H2]]; [left|right; split; [|exact H2]];
    rewrite H1, H; reflexivity.
Qed.

Lemma once_then_kept (x : string) (w w0 w' : World) :
  sends x (trace w0) = S (sends x (trace w)) -> kept x w0 w' -> once x w w'.
Proof.
  intros H [H1 H2]. right. split; [rewrite H2; exact H|exact H1].
Qed.

Lemma range_Data_once (E : Env) (host x : string) :
  healthy E ->
  forall data w, once x w (final (range_Data E host data w)).
Proof.
  intro Hh. induction data as [|id rest IH]; intro w; [left; reflexivity|].
  cbn [range_Data]. unfold bind at 1.
  rewrite checkID_run, !Hh. cbn [orb negb]. unfold bind at 1.
  rewrite addID_run, !Hh. cbn [advance pastes clock trace].
  destruct (recorded (ID_ID id) (pastes w)) eqn:Hrec.
  - cbn [Error]. rewrite String.eqb_refl. cbn [negb].
    eapply once_after; [|apply IH]. reflexivity.
  - unfold bind at 1.
    match goal with
    | |- context [send E id host ?w2] =>
        destruct (send_frame E id host w2) as [Hps Hfs];
        destruct (send E id host w2) as [err w3|msg w3]
    end; cbn [final pastes trace] in Hps, Hfs.
    + destruct (string_dec (ID_ID id) x) as [Heq|Hne].
      * assert (Hs3 : sends x (trace w3) = S (sends x (trace w)))
          by (rewrite <- Heq in *; exact (sends_same _ _ _ Hfs)).
        assert (Hr3 : recorded x (pastes w3) = true).
        { rewrite Hps, recorded_app. unfold recorded at 2.
          cbn [existsb paste_ID]. rewrite Heq, String.eqb_refl.
          apply orb_true_r. }
        destruct err as [e|].
        -- unfold bind at 1, emit.
           eapply once_then_kept;
             [|apply (range_Data_keeps E host x rest); exact Hr3].
           exact Hs3.
        -- eapply once_then_kept;
             [|apply (range_Data_keeps E host x rest); exact Hr3].
           exact Hs3.
      * assert (Hs3 : sends x (trace w3) = sends x (trace w))
          by exact (sends_other x _ _ _ Hfs Hne).
        destruct err as [e|].
        -- unfold bind at 1, emit.
           eapply once_after; [|apply IH]. exact Hs3.
        -- eapply once_after; [|apply IH]. exact Hs3.
    + cbn [final]. destruct (string_dec (ID_ID id) x) as [Heq|Hne].
      * right. split.
        -- rewrite <- Heq in *. exact (sends_same _ _ _ Hfs).
        -- rewrite Hps, recorded_app. unfold recorded at 2.
           cbn [existsb paste_ID]. rewrite Heq, String.eqb_refl.
           apply orb_true_r.
      * left. exact (sends_other x _ _ _ Hfs Hne).
Qed.

Lemma cycle_once (E : Env) (host x : string) (w : World) :
  healthy E -> once x w (final (cycle E host w)).
Proof.
  intro Hh. unfold cycle, bind at 1, emit. unfold bind at 1.
  match goal with
  | |- context [getDaily E ?w0] =>
      destruct (getDaily_frame E w0) as (_ & Hf & _);
      destruct (getDaily E w0) as [[p err] w1|msg w1]
  end; cbn [final pastes trace] in Hf.
  - assert (Hs1 : sends x (trace w1) = sends x (trace w))
      by (rewrite (sends_of_forwards x _ _ Hf); reflexivity).
    destruct err as [e|].
    + unfold emit. cbn [final]. left. exact Hs1.
    + destruct p as [p|]; [|left; exact Hs1].
      eapply once_after; [|apply (range_Data_once E host x Hh)]. exact Hs1.
  - left. cbn [final]. rewrite (sends_of_forwards x _ _ Hf). reflexivity.
Qed.

(** X13.  On a store that meets no fault, an identifier is handed to the
    forwarder at most once over any number of cycles, however often the
    feed reports it and whatever the feed and the destination do. *)
Theorem forwarded_at_most_once (E : Env) (host x : string) (n : nat) :
  healthy E ->
  forall w,
    sends x (trace (final (cycles E host n w))) <= S (sends x (trace w)).
Proof.
  intro Hh.
  assert (Honce : forall w, once x w (final (cycles E host n w))).
  { induction n as [|n IH]; intro w; [left; reflexivity|].
    cbn [cycles]. unfold bind at 1.
    pose proof (cycle_once E host x w Hh) as Hc.
    destruct (cycle E host w) as [[] w1|msg w1]; cbn [final] in Hc |- *;
      [|exact Hc].
    destruct Hc as [Hs|[Hs Hr]].
    - eapply once_after; [|apply IH]. exact Hs.
    - eapply once_then_kept; [|apply (cycles_keeps E host x n); exact Hr].
      exact Hs. }
  intro w. destruct (Honce w) as [H|[H _]]; rewrite H; lia.
Qed.

Lemma forwarded_at_most_once_witness :
  sends "a" (trace (final (cycles host_down "http://dg" 3 fresh)))
  <= S (sends "a" (trace fresh)).
Proof.
  apply (forwarded_at_most_once host_down "http://dg" "a" 3).
  intro t. reflexivity.
Defined.

Lemma advance_advance (a b : nat) (w : World) :
  advance a (advance b w) = advance (a + b) w.
Proof.
  unfold advance. cbn [pastes clock trace]. f_equal. lia.
Qed.

(** X14.  A batch of identifiers that are all in the table already passes
    without a trace: on a store that meets no fault the loop returns having
    made its six storage calls per candidate and nothing else, so no row is
    added, the forwarder is not called and no line is logged. *)
Theorem recorded_batch_is_silent (E : Env) (host : string) (data : list ID)
  (w : World) :
  healthy E ->
  (forall id, In id data -> recorded (ID_ID id) (pastes w) = true) ->
  range_Data E host data w = Ret tt (advance (6 * length data) w).
Proof.
  intros Hh. revert w. induction data as [|id rest IH]; intros w Hall.
  - destruct w. reflexivity.
  - cbn [range_Data]. unfold bind at 1.
    rewrite checkID_run, !Hh. cbn [orb negb]. unfold bind at 1.
    rewrite addID_run, !Hh. cbn [advance pastes clock trace].
    rewrite (Hall id (or_introl eq_refl)).
    cbn [Error]. rewrite String.eqb_refl. cbn [negb].
    change (mkWorld (pastes w) (4 + (2 + clock w)) (trace w))
      with (advance 4 (advance 2 w)).
    rewrite IH.
    + rewrite !advance_advance. f_equal. f_equal. cbn [length]. lia.
    + intros id' Hin. cbn [advance pastes]. apply Hall. right. exact Hin.
Qed.

Lemma recorded_batch_is_silent_witness :
  range_Data feed_ab "http://dg" [paste_a; paste_a] seen_a
  = Ret tt (advance (6 * length [paste_a; paste_a]) seen_a).
Proof.
  apply (recorded_batch_is_silent feed_ab "http://dg" [paste_a; paste_a]
           seen_a).
  - intro t. reflexivity.
  - intros id [H|[H|[]]]; rewrite <- H; reflexivity.
Defined.

(** ** The start of the process *)

Lemma only_logged_refl (w : World) : only_logged w w.
Proof. repeat split. Qed.

(** [makeTables], call by call. *)
Lemma makeTables_run (E : Env) (w : World) :
  match db_fault E (clock w), db_fault E (S (clock w)) with
  | None, None =>
      match db_fault E (S (S (clock w))) with
      | None => makeTables E w = Running None (tables_made w)
      | Some msg =>
          exists w', makeTables E w = Exited 1 w' /\ only_logged w w'
      end
  | _, _ =>
      exists w', makeTables E w = Crashed nil_dereference w' /\
                 only_logged w w'
  end.
Proof.
  unfold makeTables, pbind, lift, Prepare, Begin, ExecCreate, CommitCreate,
    bind, tick, emit, ret, pret, fatal, crash, logged, tables_made.
  cbn [clock pastes trace].
  destruct (db_fault E (clock w)) as [m0|]; cbn [option_map clock pastes trace];
    destruct (db_fault E (S (clock w))) as [m1|];
    cbn [option_map clock pastes trace];
    try (eexists; split; [reflexivity|repeat split]).
  destruct (db_fault E (S (S (clock w)))) as [m2|];
    cbn [option_map clock pastes trace].
  - eexists. split; [reflexivity|repeat split].
  - reflexivity.
Qed.

(** X15.  [makeTables] never returns an error: it returns nil, with the
    rows of the table untouched, exactly when its prepare, begin and
    create-table calls meet no fault; on a fault it does not return (it
    exits through [log.Fatalf] or panics on the nil statement or
    transaction).  The check of its result in [main] (lines 248-250) can
    therefore never fire. *)
Theorem makeTables_never_returns_error (E : Env) (w : World) :
  (forall r w', makeTables E w = Running r w' ->
                r = None /\ pastes w' = pastes w) /\
  ((exists w', makeTables E w = Running None w') <->
   (db_fault E (clock w) = None /\ db_fault E (S (clock w)) = None /\
    db_fault E (S (S (clock w))) = None)).
Proof.
  pose proof (makeTables_run E w) as H.
  destruct (db_fault E (clock w)) as [m0|];
    [|destruct (db_fault E (S (clock w))) as [m1|];
      [|destruct (db_fault E (S (S (clock w)))) as [m2|]]].
  1-3: destruct H as (w0 & H & _); split;
    [intros r w' Hr; rewrite H in Hr; discriminate|];
    split; [intros (w' & Hr); rewrite H in Hr; discriminate|];
    intros (H0 & H1 & H2); discriminate.
  split.
  - intros r w' Hr. rewrite H in Hr. inversion Hr. split; reflexivity.
  - split; [auto|]. intros _. eexists. exact H.
Qed.

Lemma makeTables_never_returns_error_witness :
  (forall r w', makeTables feed_ab seen_a = Running r w' ->
                r = None /\ pastes w' = pastes seen_a) /\
  ((exists w', makeTables feed_ab seen_a = Running None w') <->
   (db_fault feed_ab (clock seen_a) = None /\
    db_fault feed_ab (S (clock seen_a)) = None /\
    db_fault feed_ab (S (S (clock seen_a))) = None)).
Proof. exact (makeTables_never_returns_error feed_ab seen_a). Defined.

Lemma lift_not_exited {A} (m : M A) (w w' : World) (status : Z) :
  lift m w <> Exited status w'.
Proof. unfold lift. destruct (m w); discriminate. Qed.

(** [main], branch by branch. *)
Lemma main_unfold (E : Env) (S0 : Start) (n : nat) (w : World) :
  main E S0 n w =
  match sql_Open S0 with
  | Some msg => Exited 1 (logged ("Failed to open database: " ++ msg) w)
  | None =>
      match makeTables E w with
      | Running (Some e) w1 =>
          Exited 1 (logged ("failed to create `pastes` table: " ++ Error e) w1)
      | Running None w1 =>
          if DG_HOST S0 =? "" then
            Exited 1
              (logged
                 "Must provide Dr.Gero API host in DG_HOST environment variable"
                 w1)
          else if (wrap64 (opts_Interval S0 * Minute) <=? 0)%Z then
            Crashed "non-positive interval for NewTicker" w1
          else
            lift (cycles E (DG_HOST S0) n)
                 (logged "Starting psbdmp.cc Monitor" w1)
      | Exited status w1 => Exited status w1
      | Crashed msg w1 => Crashed msg w1
      end
  end.
Proof.
  unfold main.
  destruct (sql_Open S0) as [msg|]; [reflexivity|].
  unfold pbind at 1.
  destruct (makeTables E w) as [[e|] w1|status w1|msg w1]; try reflexivity.
  destruct (DG_HOST S0 =? ""); [reflexivity|].
  destruct (wrap64 (opts_Interval S0 * Minute) <=? 0)%Z; reflexivity.
Qed.

(** [main] either stops during the start, having only logged, or enters
    the loop. *)
Lemma main_run (E : Env) (S0 : Start) (n : nat) (w : World) :
  (exists w', (main E S0 n w = Exited 1 w' \/
               exists msg, main E S0 n w = Crashed msg w') /\
              only_logged w w') \/
  (sql_Open S0 = None /\
   db_fault E (clock w) = None /\ db_fault E (S (clock w)) = None /\
   db_fault E (S (S (clock w))) = None /\
   (DG_HOST S0 =? "") = false /\
   (wrap64 (opts_Interval S0 * Minute) <=? 0)%Z = false /\
   main E S0 n w
   = lift (cycles E (DG_HOST S0) n)
          (logged "Starting psbdmp.cc Monitor" (tables_made w))).
Proof.
  rewrite main_unfold.
  destruct (sql_Open S0) as [msg|].
  { left. eexists. split; [left; reflexivity|]. repeat split. }
  pose proof (makeTables_run E w) as H.
  destruct (db_fault E (clock w)) as [m0|].
  { destruct H as (w0 & H & Hq). rewrite H. left. exists w0.
    split; [right; eexists; reflexivity|exact Hq]. }
  destruct (db_fault E (S (clock w))) as [m1|].
  { destruct H as (w0 & H & Hq). rewrite H. left. exists w0.
    split; [right; eexists; reflexivity|exact Hq]. }
  destruct (db_fault E (S (S (clock w)))) as [m2|].
  { destruct H as (w0 & H & Hq). rewrite H. left. exists w0.
    split; [left; reflexivity|exact Hq]. }
  rewrite H.
  destruct (DG_HOST S0 =? "") eqn:Hhost.
  { left. eexists. split; [left; reflexivity|]. repeat split. }
  destruct (wrap64 (opts_Interval S0 * Minute) <=? 0)%Z eqn:Hint.
  { left. eexists. split; [right; eexists; reflexivity|]. repeat split. }
  right. repeat split.
Qed.

(** X16.  [main] polls only after a complete start: if a run of [main]
    has called [client.Do] or the forwarder at all, then the database
    opened, [makeTables] met no fault, DG_HOST is not empty and the ticker
    period is positive; and every POST of the run went to DG_HOST/event. *)
Theorem main_polls_only_when_started (E : Env) (S0 : Start) (n : nat)
  (w : World) :
  (fetches (trace (ended (main E S0 n w))) <> fetches (trace w) \/
   forwards (trace (ended (main E S0 n w))) <> forwards (trace w) ->
   sql_Open S0 = None /\
   db_fault E (clock w) = None /\ db_fault E (S (clock w)) = None /\
   db_fault E (S (S (clock w))) = None /\
   DG_HOST S0 <> "" /\
   (0 < wrap64 (opts_Interval S0 * Minute))%Z) /\
  (exists ps,
      posts (trace (ended (main E S0 n w))) = (ps ++ posts (trace w))%list /\
      Forall (fun p => fst p = DG_HOST S0 ++ "/event") ps).
Proof.
  destruct (main_run E S0 n w)
    as [(w' & Hrun & Hp & Hf & Hs & Hpo)
       |(Ho & H0 & H1 & H2 & Hhost & Hint & Hrun)].
  - assert (He : ended (main E S0 n w) = w')
      by (destruct Hrun as [H|[msg H]]; rewrite H; reflexivity).
    rewrite He. split.
    + intros [H|H]; contradiction.
    + exists []. split; [exact Hpo|constructor].
  - split.
    + intros _. repeat split; try assumption.
      * intro Heq. rewrite Heq in Hhost. discriminate.
      * apply Z.leb_gt in Hint. exact Hint.
    + rewrite Hrun.
      destruct (cycles_one_post_per_send E (DG_HOST S0) n
                  (logged "Starting psbdmp.cc Monitor" (tables_made w)))
        as (ps & ss & Hps & _ & _ & Hall).
      exists ps. split.
      * unfold lift.
        destruct (cycles E (DG_HOST S0) n
                    (logged "Starting psbdmp.cc Monitor" (tables_made w)));
          exact Hps.
      * eapply Forall_impl; [|exact Hall]. intros p [Hu _]. exact Hu.
Qed.

Lemma main_polls_only_when_started_witness :
  sql_Open start_ok = None /\
  db_fault feed_ab (clock fresh) = None /\
  db_fault feed_ab (S (clock fresh)) = None /\
  db_fault feed_ab (S (S (clock fresh))) = None /\
  DG_HOST start_ok <> "" /\
  (0 < wrap64 (opts_Interval start_ok * Minute))%Z.
Proof.
  apply (proj1 (main_polls_only_when_started feed_ab start_ok 1 fresh)).
  left. vm_compute. lia.
Defined.




(** X18.  Exit status.  The process leaves with status 0 only from [init],
    when the command line asked for help, and then before anything was
    done; every other exit (a command line that does not parse, a database
    that does not open, a failed table creation, an empty DG_HOST) has
    status 1. *)
Theorem exit_status_zero_only_for_help (E : Env) (S0 : Start) (n : nat)
  (w w' : World) (status : Z) :
  process E S0 n w = Exited status w' ->
  (status = 0%Z /\ Parse S0 = ParseHelp /\ w' = w) \/
  (status = 1%Z /\ Parse S0 <> ParseHelp).
Proof.
  unfold process, pbind at 1, init.
  destruct (Parse S0) as [i| |] eqn:Hparse.
  - unfold pret. intro H. right. split; [|discriminate].
    destruct (main_run E S0 n w)
      as [(w0 & [Hrun|[msg Hrun]] & _)|(_ & _ & _ & _ & _ & _ & Hrun)];
      rewrite Hrun in H.
    + inversion H. reflexivity.
    + discriminate.
    + exfalso. exact (lift_not_exited _ _ _ _ H).
  - unfold exit. intro H. inversion H. left. repeat split.
  - unfold exit. intro H. inversion H. right. split; [reflexivity|discriminate].
Qed.

Lemma exit_status_zero_only_for_help_witness :
  (0%Z = 0%Z /\ Parse (mkStart ParseHelp None "") = ParseHelp /\ fresh = fresh) \/
  (0%Z = 1%Z /\ Parse (mkStart ParseHelp None "") <> ParseHelp).
Proof.
  apply (exit_status_zero_only_for_help feed_ab (mkStart ParseHelp None "")
           3 fresh fresh 0%Z).
  reflexivity.
Defined.

Lemma ended_lift {A} (m : M A) (w : World) :
  ended (lift m w) = final (m w).
Proof. unfold lift. destruct (m w); reflexivity. Qed.

(** X19.  Deduplication survives a restart: if an identifier is in the
    table when the process starts (left there by an earlier run), then
    however this run goes (exit at start, panic, any number of cycles) the
    identifier is still in the table at its end and the forwarder was never
    called for it. *)
Theorem restart_keeps_ledger (E : Env) (S0 : Start) (n : nat) (x : string)
  (w : World) :
  recorded x (pastes w) = true ->
  recorded x (pastes (ended (process E S0 n w))) = true /\
  sends x (trace (ended (process E S0 n w))) = sends x (trace w).
Proof.
  intro Hrec. unfold process, pbind at 1, init.
  assert (Hmain : recorded x (pastes (ended (main E S0 n w))) = true /\
                  sends x (trace (ended (main E S0 n w))) = sends x (trace w)).
  { destruct (main_run E S0 n w)
      as [(w' & Hrun & Hp & _ & Hf & _)|(_ & _ & _ & _ & _ & _ & Hrun)].
    - assert (He : ended (main E S0 n w) = w')
        by (destruct Hrun as [H|[msg H]]; rewrite H; reflexivity).
      rewrite He, Hp. split; [exact Hrec|].
      apply sends_of_forwards. exact Hf.
    - rewrite Hrun, ended_lift.
      apply (cycles_keeps E (DG_HOST S0) x n
               (logged "Starting psbdmp.cc Monitor" (tables_made w))).
      exact Hrec. }
  destruct (Parse S0); cbn [ended]; [exact Hmain| |]; split;
    (exact Hrec || reflexivity).
Qed.

Lemma restart_keeps_ledger_witness :
  recorded "a" (pastes (ended (process feed_ab start_ok 2 seen_a))) = true /\
  sends "a" (trace (ended (process feed_ab start_ok 2 seen_a)))
  = sends "a" (trace seen_a).
Proof.
  apply (restart_keeps_ledger feed_ab start_ok 2 "a" seen_a).
  reflexivity.
Defined.
